(** * SQL scenario helpers for Jest: a shallow embedding and its properties

    The development follows the JavaScript module that installs the global
    helpers [sqlScenario], [sqlFileScenario], [describeSqlScenario] and
    [describeSqlFileScenario], together with the type declarations of
    [api-sqlscenarios.d.ts].

    - JavaScript strings are [string]s whose characters are UTF-16 code units
      in the range 0..255.
    - A [ContextMap] is a plain object on the heap; the heap is a [gmap] from
      references to objects, an object is a [gmap] from the names of its own
      properties to values, and its prototype is [Object.prototype].
    - [async] functions are computations in a monad of state, trace and
      exceptions; [await] is sequencing. *)

From Stdlib Require Import Ascii String NArith.
From stdpp Require Import gmap strings list.

(** ** Strings *)

Module JsString.

Definition quote : string := String (ascii_of_nat 34) EmptyString.

(** [[A-Za-z0-9_]] *)
Definition is_word_char (c : ascii) : bool :=
  let n := N_of_ascii c in
  ((65 <=? n) && (n <=? 90) || (97 <=? n) && (n <=? 122)
   || (48 <=? n) && (n <=? 57) || (n =? 95))%N.

(** White space and line terminators removed by [String.prototype.trim]:
    TAB, LF, VT, FF, CR, SP and NBSP. *)
Definition is_space (c : ascii) : bool :=
  let n := N_of_ascii c in
  ((9 <=? n) && (n <=? 13) || (n =? 32) || (n =? 160))%N.

Fixpoint trimStart (s : string) : string :=
  match s with
  | String c s' => if is_space c then trimStart s' else s
  | EmptyString => EmptyString
  end.

Fixpoint trimEnd (s : string) : string :=
  match s with
  | String c s' =>
      match trimEnd s' with
      | EmptyString => if is_space c then EmptyString else String c EmptyString
      | r => String c r
      end
  | EmptyString => EmptyString
  end.

Definition trim (s : string) : string := trimEnd (trimStart s).

(** [s.split(sep)] for a one-character separator. *)
Fixpoint split (sep : ascii) (s : string) : list string :=
  match s with
  | EmptyString => [EmptyString]
  | String c s' =>
      if Ascii.eqb c sep then EmptyString :: split sep s'
      else match split sep s' with
           | piece :: pieces => String c piece :: pieces
           | [] => [String c EmptyString]
           end
  end.

(** [lines.join(sep)] *)
Definition join (sep : string) (lines : list string) : string :=
  String.concat sep lines.

(** The longest prefix of word characters, and what follows it. *)
Fixpoint span_word (s : string) : string * string :=
  match s with
  | String c s' =>
      if is_word_char c
      then let '(w, r) := span_word s' in (String c w, r)
      else (EmptyString, s)
  | EmptyString => (EmptyString, EmptyString)
  end.

(** The regular expression [/\{([A-Za-z0-9_]+)}/] anchored at the start of
    [s]: the captured group and the text after the match. *)
Definition match_placeholder (s : string) : option (string * string) :=
  match s with
  | String "{" s' =>
      match span_word s' with
      | (String c w, String "}" rest) => Some (String c w, rest)
      | _ => None
      end
  | _ => None
  end.

(** [s.replaceAll(/\{([A-Za-z0-9_]+)}/g, (_match, key) => replacer key)]:
    matches are searched from left to right and do not overlap; the text
    between matches is copied. *)
Fixpoint replaceAll_loop (fuel : nat) (replacer : string → string) (s : string) : string :=
  match fuel with
  | O => s
  | S fuel' =>
      match match_placeholder s with
      | Some (key, rest) => replacer key +:+ replaceAll_loop fuel' replacer rest
      | None =>
          match s with
          | String c s' => String c (replaceAll_loop fuel' replacer s')
          | EmptyString => EmptyString
          end
      end
  end.

Definition replaceAll (replacer : string → string) (s : string) : string :=
  replaceAll_loop (String.length s) replacer s.

(** An identifier of the placeholder syntax: one or more word characters. *)
Fixpoint all_word (s : string) : bool :=
  match s with
  | String c s' => is_word_char c && all_word s'
  | EmptyString => true
  end.

Definition is_identifier (s : string) : bool :=
  match s with
  | EmptyString => false
  | _ => all_word s
  end.

(** A string made of white space only; the empty string is one. *)
Fixpoint whitespace_only (s : string) : bool :=
  match s with
  | String c s' => is_space c && whitespace_only s'
  | EmptyString => true
  end.

(** The keys of the matches of [/\{([A-Za-z0-9_]+)}/g] in [s], from left to
    right. *)
Fixpoint placeholders_loop (fuel : nat) (s : string) : list string :=
  match fuel with
  | O => []
  | S fuel' =>
      match match_placeholder s with
      | Some (key, rest) => key :: placeholders_loop fuel' rest
      | None =>
          match s with
          | String _ s' => placeholders_loop fuel' s'
          | EmptyString => []
          end
      end
  end.

Definition placeholders (s : string) : list string :=
  placeholders_loop (String.length s) s.

(** A text with nothing but white space and separators. *)
Fixpoint blank_between (sep : ascii) (s : string) : bool :=
  match s with
  | String c s' => (Ascii.eqb c sep || is_space c) && blank_between sep s'
  | EmptyString => true
  end.

(** [s.includes(c)] for one character. *)
Fixpoint includes (c : ascii) (s : string) : bool :=
  match s with
  | String a s' => Ascii.eqb a c || includes c s'
  | EmptyString => false
  end.

End JsString.

(** ** Values, objects and the heap *)

(** The values a property of a [ContextMap] can hold: the declared type is
    [string]; [undefined] is what the module itself can store. *)
Inductive jsval : Type :=
| JUndefined
| JStr (s : string).

Global Instance jsval_eq_dec : EqDecision jsval.
Proof. solve_decision. Defined.

(** The members that a plain object inherits from [Object.prototype], by
    name, with the text that [String] gives for each on Node: the built-in
    functions (for [constructor], the function [Object]) and, for
    [__proto__], the prototype object itself. *)
Definition native_function (name : string) : string :=
  "function " +:+ name +:+ "() { [native code] }".

Definition prototype_member_text (key : string) : option string :=
  if String.eqb key "constructor" then Some (native_function "Object")
  else if String.eqb key "__proto__" then Some "[object Object]"
  else if (String.eqb key "toString" || String.eqb key "toLocaleString"
           || String.eqb key "valueOf" || String.eqb key "hasOwnProperty"
           || String.eqb key "isPrototypeOf" || String.eqb key "propertyIsEnumerable"
           || String.eqb key "__defineGetter__" || String.eqb key "__defineSetter__"
           || String.eqb key "__lookupGetter__" || String.eqb key "__lookupSetter__")
       then Some (native_function key)
  else None.

(** What reading a property gives: a value stored in the object itself, or
    a member inherited from [Object.prototype], given by its text. *)
Inductive propval : Type :=
| Own (v : jsval)
| Inherited (text : string).

Coercion Own : jsval >-> propval.

Definition truthy (v : propval) : bool :=
  match v with
  | Own JUndefined => false
  | Own (JStr EmptyString) => false
  | Own (JStr _) => true
  | Inherited _ => true
  end.

(** [String(v)] *)
Definition to_text (v : propval) : string :=
  match v with
  | Own JUndefined => "undefined"
  | Own (JStr s) => s
  | Inherited text => text
  end.

Abbreviation ContextMap := (gmap string jsval).
Abbreviation loc := positive.
Abbreviation Heap := (gmap loc (gmap string jsval)).

(** [o[key]] on a plain object: the property of the object itself when it
    has one (also when its value is [undefined]), else the member of
    [Object.prototype] of that name, else [undefined]. *)
Definition get_prop (o : ContextMap) (key : string) : propval :=
  match o !! key with
  | Some v => Own v
  | None =>
      match prototype_member_text key with
      | Some text => Inherited text
      | None => Own JUndefined
      end
  end.

(** [{ ...a, ...b }]: the properties of [a], then those of [b] on top. *)
Definition spread2 (a b : ContextMap) : ContextMap := b ∪ a.

Definition spread3 (a b c : ContextMap) : ContextMap := c ∪ (b ∪ a).

(** The object a reference points to. *)
Definition deref (h : Heap) (l : loc) : ContextMap := default ∅ (h !! l).

(** Allocation of a new object: a reference that is not in use. *)
Definition alloc (h : Heap) (o : ContextMap) : loc * Heap :=
  let l := fresh (dom h) in (l, <[l := o]> h).


(** ** Exceptions, events and the monad of asynchronous code *)

(** A thrown [Error] object.  An object received from a collaborator (the
    database, the file system, the parser, a test body) has an identity;
    [new Error(message)] is made at the place that throws it. *)
Inductive Error : Type :=
| NewError (message : string)
| ErrorObject (id : N) (message : string).

Definition message (ex : Error) : string :=
  match ex with
  | NewError m => m
  | ErrorObject _ m => m
  end.

(** [ex.message = m]: the same object, with another message. *)
Definition set_message (ex : Error) (m : string) : Error :=
  match ex with
  | NewError _ => NewError m
  | ErrorObject id _ => ErrorObject id m
  end.

(** Two views of one object: they differ at most in the message. *)
Definition same_object (ex1 ex2 : Error) : Prop :=
  match ex1, ex2 with
  | ErrorObject id1 _, ErrorObject id2 _ => id1 = id2
  | NewError _, NewError _ => True
  | _, _ => False
  end.

Inductive outcome (A : Type) : Type :=
| Returned (a : A)
| Threw (ex : Error).
Arguments Returned {A} a.
Arguments Threw {A} ex.

(** The calls this module makes to its collaborators, in the order in which
    they are made. *)
Inductive event : Type :=
| EvReadFile (filename : string)
| EvExecute (statement : string)
| EvDisconnect
| EvTestFunc
| EvDescribeBlock (contextMap : loc).

Global Instance event_eq_dec : EqDecision event.
Proof. solve_decision. Defined.

(** A computation over a state [S]: the state it leaves, the events it
    adds to the trace, and how it ends. *)
Definition Mst (S A : Type) : Type := S → S * list event * outcome A.

Definition ret {S A} (a : A) : Mst S A := λ s, (s, [], Returned a).

Definition throw {S A} (ex : Error) : Mst S A := λ s, (s, [], Threw ex).

Definition bind {S A B} (m : Mst S A) (k : A → Mst S B) : Mst S B :=
  λ s, match m s with
       | (s1, t1, Returned a) =>
           let '(s2, t2, r) := k a s1 in (s2, t1 ++ t2, r)
       | (s1, t1, Threw ex) => (s1, t1, Threw ex)
       end.

Global Instance Mst_ret S : MRet (Mst S) := λ A, ret.
Global Instance Mst_bind S : MBind (Mst S) := λ A B k m, bind m k.

Definition gets {S A} (f : S → A) : Mst S A := λ s, (s, [], Returned (f s)).

Definition modify {S} (f : S → S) : Mst S unit := λ s, (f s, [], Returned tt).

(** [try { m } catch (ex) { handler ex }] *)
Definition try_catch {S A} (m : Mst S A) (handler : Error → Mst S A) : Mst S A :=
  λ s, match m s with
       | (s1, t1, Threw ex) =>
           let '(s2, t2, r) := handler ex s1 in (s2, t1 ++ t2, r)
       | done => done
       end.

(** [try { m } finally { cleanup }]: the cleanup runs however [m] ends; when
    the cleanup throws, its exception replaces the outcome of [m]. *)
Definition try_finally {S A B} (m : Mst S A) (cleanup : Mst S B) : Mst S A :=
  λ s, let '(s1, t1, r1) := m s in
       let '(s2, t2, r2) := cleanup s1 in
       (s2, t1 ++ t2,
        match r2 with
        | Threw ex => Threw ex
        | Returned _ => r1
        end).

(** [for (const x of xs) { body x }] *)
Fixpoint for_of {S A} (xs : list A) (body : A → Mst S unit) : Mst S unit :=
  match xs with
  | [] => ret tt
  | x :: xs' => bind (body x) (λ _, for_of xs' body)
  end.

(** [xs.map(f)] for a callback with effects: the elements are visited in
    order and an exception ends the traversal. *)
Fixpoint array_map {S A B} (f : A → Mst S B) (xs : list A) : Mst S (list B) :=
  match xs with
  | [] => ret []
  | x :: xs' => bind (f x) (λ y, bind (array_map f xs') (λ ys, ret (y :: ys)))
  end.

(** Local variables declared with [let] around a block: the block runs on
    the state extended with the variables. *)
Definition with_locals {L S A} (init : L) (m : Mst (L * S) A) : Mst S A :=
  λ s, let '(ls, t, r) := m (init, s) in (ls.2, t, r).

Definition outer {L S A} (m : Mst S A) : Mst (L * S) A :=
  λ ls, let '(s, t, r) := m ls.2 in ((ls.1, s), t, r).

Definition get_locals {L S} : Mst (L * S) L := gets fst.

Definition set_locals {L S} (f : L → L) : Mst (L * S) unit :=
  modify (λ ls, (f ls.1, ls.2)).

(** ** The world and the collaborators *)

Class Platform : Type := {
  (** the state of the database, its connection and the file system *)
  Ext : Type;
  (** what a test body, [it] and [describe] return *)
  Value : Type;
  (** syntax trees of the SQL parser *)
  AST : Type;
}.

Record World `{Platform} : Type := mkWorld {
  heap : Heap;
  ext : Ext;
}.

Abbreviation M := (Mst World).

(** The result of [path.parse]. *)
Record ParsedPath : Type := mkParsedPath {
  root : string;
  dir : string;
  base : string;
  extname : string;
  name : string;
}.

(** The arguments a helper can receive; a function is called with no
    argument or with a context map. *)
Inductive jsarg `{Platform} : Type :=
| ArgUndefined
| ArgNull
| ArgString (s : string)
| ArgArray (entries : list (option string))
| ArgObject (l : loc)
| ArgFunction (f : option loc → M Value).

Class Collaborators `{Platform} : Type := {
  (** [process.env] *)
  process_env : string → option string;
  (** [fs.readFileSync(filename).toString()] *)
  fs_readFileSync : string → Ext → outcome string;
  (** [path.parse] *)
  path_parse : string → ParsedPath;
  (** [parser.astify] and [parser.sqlify] of [node-sql-parser] *)
  parser_astify : string → outcome AST;
  parser_sqlify : AST → outcome string;
  (** [db.$executeRawUnsafe] and [db.$disconnect] of [src/lib/db] *)
  db_executeRawUnsafe : string → Ext → Ext * outcome unit;
  db_disconnect : Ext → Ext * outcome unit;
  (** [JSON.stringify] on an argument list *)
  JSON_stringify : list jsarg → Heap → string;
  (** Jest: the hooks and the registration functions bound by the module *)
  beforeAll : M unit → M unit;
  afterAll : M unit → M unit;
  global_testPath : string;
  global_it : string → M Value → M Value;
  global_it_only : string → M Value → M Value;
  global_it_failing : string → M Value → M Value;
  global_it_skip : string → M Value → M Value;
  global_describe : string → M unit → M Value;
  global_describe_skip : string → M unit → M Value;
  global_describe_only : string → M unit → M Value;
}.

Section Scenarios.
Context `{Collaborators}.

(** A call of a collaborator that works on the outside state. *)
Definition call_ext {A} (ev : event) (f : Ext → Ext * outcome A) : M A :=
  λ w, let '(e, r) := f (ext w) in (mkWorld _ (heap w) e, [ev], r).

Definition of_outcome {A} (r : outcome A) : M A :=
  match r with
  | Returned a => ret a
  | Threw ex => throw ex
  end.

(** [new]: a fresh object on the heap. *)
Definition new_object (o : ContextMap) : M loc :=
  λ w, let '(l, h) := alloc (heap w) o in (mkWorld _ h (ext w), [], Returned l).

(** [process.env.NAME || fallback] *)
Definition env_or (var fallback : string) : string :=
  match process_env var with
  | Some EmptyString | None => fallback
  | Some v => v
  end.

Definition startingContext : ContextMap :=
  {[ "TEST_DATABASE_DBNAME" := JStr (env_or "TEST_DATABASE_DBNAME" "am_admin_test");
     "DISTRICT_TEST_DATABASE_DBNAME" :=
       JStr (env_or "DISTRICT_TEST_DATABASE_DBNAME" "amd_district_test") ]}.

(** [string | string[]], where an entry can be [null]. *)
Inductive Commands : Type :=
| OneCommand (entry : option string)
| ManyCommands (entries : list (option string)).

Record SqlStatementGroup : Type := mkGroup {
  statements : list string;
  filename : string;
}.

(** [currentFilename] and [currentStatement]; [None] is [undefined]. *)
Record Locals : Type := mkLocals {
  currentFilename : option string;
  currentStatement : option string;
}.

(** A value inside a template literal. *)
Definition interpolate (v : option string) : string := default "undefined" v.

Definition toArray (variable : Commands) : list (option string) :=
  match variable with
  | ManyCommands entries => entries
  | OneCommand entry => [entry]
  end.

(** [contextMap[key] || `{${key}}`], as the text that [replaceAll] inserts. *)
Definition replacement (contextMap : ContextMap) (key : string) : string :=
  let value := get_prop contextMap key in
  if truthy value then to_text value else "{" +:+ key +:+ "}".

(** One line of [replaceWithContext]: [line?.replaceAll(...) || ''] *)
Definition replaceLine (contextMap : ContextMap) (line : option string) : string :=
  let modified := JsString.replaceAll (replacement contextMap) <$> line in
  default "" modified.

Definition replaceWithContext (contextMap : loc) (lines : list (option string))
  : M (list string) :=
  h ← gets heap;
  mret (map (replaceLine (deref h contextMap)) lines).

Definition getFullFilename (filename : string) (pathname : ParsedPath) : string :=
  dir pathname +:+ "/" +:+ JsString.trim filename.

Definition splitSql (statements : string) : M (list string) :=
  ast ← of_outcome (parser_astify statements);
  sql ← of_outcome (parser_sqlify ast);
  mret (filter (λ line, 0 < String.length line)
          (map JsString.trim (JsString.split ";" sql))).

Definition fetchSql (contextMap : loc) (filename : string) : M SqlStatementGroup :=
  fileContents ← call_ext (EvReadFile filename)
                   (λ e, (e, fs_readFileSync filename e));
  modified ← replaceWithContext contextMap [Some fileContents];
  let modifiedContents := default "" (modified !! 0) in
  statements ← splitSql modifiedContents;
  mret (mkGroup statements filename).

(** [entry && entry.trim().length > 0] *)
Definition is_command (entry : option string) : bool :=
  match entry with
  | Some s => negb (String.eqb s "") && bool_decide (0 < String.length (JsString.trim s))
  | None => false
  end.

(** An entry that is [null], empty or made of white space only. *)
Definition is_blank (entry : option string) : bool :=
  match entry with
  | Some s => JsString.whitespace_only s
  | None => true
  end.

(** [toArray(commands).filter(...)]; what is kept is a string. *)
Definition actualCommands (commands : Commands) : list string :=
  omap (λ entry, if is_command entry then entry else None) (toArray commands).

(** The statement groups: one per file, or one for the raw input. *)
Definition sqlStatements (contextMap : loc) (commands : Commands)
    (pathname : ParsedPath) (treatAsFiles : bool) : M (list SqlStatementGroup) :=
  if treatAsFiles then
    array_map (λ filename, fetchSql contextMap (getFullFilename filename pathname))
      (actualCommands commands)
  else
    modifiedCommands ← replaceWithContext contextMap (Some <$> actualCommands commands);
    statements ← splitSql (JsString.join ";" modifiedCommands);
    mret [mkGroup statements "raw input"].

Definition statementCount (groups : list SqlStatementGroup) : nat :=
  foldl (λ total len, total + len) 0 (map (λ g, length (statements g)) groups).

(** The [try] block of [executeSql]. *)
Definition executeStatements (groups : list SqlStatementGroup) : Mst (Locals * World) unit :=
  for_of groups (λ sql,
    set_locals (λ v, mkLocals (Some (filename sql)) (currentStatement v));;
    for_of (statements sql) (λ statement,
      set_locals (λ v, mkLocals (currentFilename v) (Some statement));;
      outer (call_ext (EvExecute statement) (db_executeRawUnsafe statement)))).

(** The [catch] block of [executeSql]. *)
Definition annotate (ex : Error) : Mst (Locals * World) unit :=
  v ← get_locals;
  throw (set_message ex
           ("Error executing sql " +:+ JsString.quote +:+ interpolate (currentStatement v)
            +:+ JsString.quote +:+ " from " +:+ interpolate (currentFilename v)
            +:+ ": " +:+ message ex)).

Definition executeSql (contextMap : loc) (commands : Commands)
    (pathname : ParsedPath) (treatAsFiles : bool) : M unit :=
  groups ← sqlStatements contextMap commands pathname treatAsFiles;
  if statementCount groups =? 0 then mret tt
  else
    with_locals (mkLocals None None)
      (try_finally
         (try_catch (executeStatements groups) annotate)
         (outer (call_ext EvDisconnect db_disconnect))).


(** ** The scenario builders *)

Definition emit (ev : event) : M unit := λ w, (w, [ev], Returned tt).

(** A call whose arguments do not have the types declared in
    [api-sqlscenarios.d.ts]; the module is checked against them ([@ts-check])
    and the embedding does not describe such calls further. *)
Definition outside_signature {A} : M A := throw (NewError "TypeError").

(** An argument in the place of a [string | string[]] parameter. *)
Definition as_commands (a : jsarg) : option Commands :=
  match a with
  | ArgString s => Some (OneCommand (Some s))
  | ArgArray entries => Some (ManyCommands entries)
  | ArgNull | ArgUndefined => Some (OneCommand None)
  | _ => None
  end.

(** [[name, providedMap, sqlSetup, sqlTeardown, func] = args] *)
Definition destructure5 (args : list jsarg)
  : option (string * loc * Commands * Commands * (option loc → M Value)) :=
  match args with
  | [ArgString nm; ArgObject providedMap; a3; a4; ArgFunction func] =>
      sqlSetup ← as_commands a3;
      sqlTeardown ← as_commands a4;
      Some (nm, providedMap, sqlSetup, sqlTeardown, func)
  | _ => None
  end.

(** [[name, sqlSetup, sqlTeardown, func] = args] *)
Definition destructure4 (args : list jsarg)
  : option (string * Commands * Commands * (option loc → M Value)) :=
  match args with
  | [ArgString nm; a2; a3; ArgFunction func] =>
      sqlSetup ← as_commands a2;
      sqlTeardown ← as_commands a3;
      Some (nm, sqlSetup, sqlTeardown, func)
  | _ => None
  end.

(** The [async] function that [buildTestSqlScenario] hands to [it]. *)
Definition testBody (contextMap : loc) (sqlSetup sqlTeardown : Commands)
    (pathname : ParsedPath) (treatAsFiles : bool)
    (testFunc : option loc → M Value) : M Value :=
  executeSql contextMap sqlSetup pathname treatAsFiles;;
  result ← try_finally
             (emit EvTestFunc;; testFunc None)
             (executeSql contextMap sqlTeardown pathname treatAsFiles);
  mret result.

(** The context map of a test: the branch taken for five arguments. *)
Definition testContext (providedMap : loc) : M loc :=
  h ← gets heap;
  if truthy (get_prop (deref h providedMap) "describeBlockName")
  then mret providedMap
  else new_object (spread2 startingContext (deref h providedMap)).

Definition buildTestSqlScenario (it : string → M Value → M Value)
    (testPath : string) (treatAsFiles : bool) (args : list jsarg) : M Value :=
  let pathname := path_parse testPath in
  if length args =? 5 then
    match destructure5 args with
    | Some (testName, providedMap, sqlSetup, sqlTeardown, testFunc) =>
        contextMap ← testContext providedMap;
        it testName (testBody contextMap sqlSetup sqlTeardown pathname treatAsFiles testFunc)
    | None => outside_signature
    end
  else if length args =? 4 then
    match destructure4 args with
    | Some (testName, sqlSetup, sqlTeardown, testFunc) =>
        contextMap ← new_object startingContext;
        it testName (testBody contextMap sqlSetup sqlTeardown pathname treatAsFiles testFunc)
    | None => outside_signature
    end
  else
    h ← gets heap;
    throw (NewError ("parameter mismatch in sql" +:+ (if treatAsFiles then "File" else "")
                     +:+ "Scenario(): " +:+ JSON_stringify args h)).

(** The callback that [buildDescribeSqlScenario] hands to [describe]. *)
Definition describeBody (contextMap : loc) (sqlSetup sqlTeardown : Commands)
    (pathname : ParsedPath) (treatAsFiles : bool)
    (describeBlock : option loc → M Value) : M unit :=
  beforeAll (executeSql contextMap sqlSetup pathname treatAsFiles);;
  afterAll (executeSql contextMap sqlTeardown pathname treatAsFiles);;
  emit (EvDescribeBlock contextMap);;
  describeBlock (Some contextMap);;
  mret tt.

(** [const blockContext = { describeBlockName: describeBlockName }] is
    evaluated right after [let describeBlockName;], before the arguments are
    fetched: the variable holds [undefined] at that point. *)
Definition blockContext : ContextMap :=
  let describeBlockName := JUndefined in
  {[ "describeBlockName" := describeBlockName ]}.

(** The context map of a group, for five and for four arguments. *)
Definition describeContext (providedMap : option loc) : M loc :=
  match providedMap with
  | Some providedMap =>
      h ← gets heap;
      new_object (spread3 blockContext startingContext (deref h providedMap))
  | None => new_object (spread2 blockContext startingContext)
  end.

Definition buildDescribeSqlScenario (describeFunc : string → M unit → M Value)
    (testPath : string) (treatAsFiles : bool) (args : list jsarg) : M Value :=
  let pathname := path_parse testPath in
  if length args =? 5 then
    match destructure5 args with
    | Some (describeBlockName, providedMap, sqlSetup, sqlTeardown, describeBlock) =>
        contextMap ← describeContext (Some providedMap);
        describeFunc describeBlockName
          (describeBody contextMap sqlSetup sqlTeardown pathname treatAsFiles describeBlock)
    | None => outside_signature
    end
  else if length args =? 4 then
    match destructure4 args with
    | Some (describeBlockName, sqlSetup, sqlTeardown, describeBlock) =>
        contextMap ← describeContext None;
        describeFunc describeBlockName
          (describeBody contextMap sqlSetup sqlTeardown pathname treatAsFiles describeBlock)
    | None => outside_signature
    end
  else
    h ← gets heap;
    throw (NewError ("parameter mismatch in describeSql"
                     +:+ (if treatAsFiles then "File" else "")
                     +:+ "Scenario(): " +:+ JSON_stringify args h)).

(** The helpers installed on [global]. *)
Definition sqlScenario := buildTestSqlScenario global_it global_testPath false.
Definition sqlScenario_only := buildTestSqlScenario global_it_only global_testPath false.
Definition sqlScenario_failing := buildTestSqlScenario global_it_failing global_testPath false.
Definition sqlScenario_skip := buildTestSqlScenario global_it_skip global_testPath false.
Definition sqlFileScenario := buildTestSqlScenario global_it global_testPath true.
Definition sqlFileScenario_only := buildTestSqlScenario global_it_only global_testPath true.
Definition sqlFileScenario_failing := buildTestSqlScenario global_it_failing global_testPath true.
Definition sqlFileScenario_skip := buildTestSqlScenario global_it_skip global_testPath true.

Definition describeSqlScenario :=
  buildDescribeSqlScenario global_describe global_testPath false.
Definition describeSqlScenario_skip :=
  buildDescribeSqlScenario global_describe_skip global_testPath false.
Definition describeSqlScenario_only :=
  buildDescribeSqlScenario global_describe_only global_testPath false.
Definition describeSqlFileScenario :=
  buildDescribeSqlScenario global_describe global_testPath true.
Definition describeSqlFileScenario_skip :=
  buildDescribeSqlScenario global_describe_skip global_testPath true.
Definition describeSqlFileScenario_only :=
  buildDescribeSqlScenario global_describe_only global_testPath true.

End Scenarios.

(** ** Reference behaviour of the execution channel *)

Section Channel.
Context `{Collaborators}.

(** The statements of all groups in the order of the groups and, inside a
    group, in the order of its statements; each with the label of its group. *)
Definition labelled (groups : list SqlStatementGroup) : list (string * string) :=
  g ← groups; (λ statement, (filename g, statement)) <$> statements g.

(** Statements handed to the database one after the other, each on the state
    the previous one left, up to the first that fails: the final state, the
    calls made, and the statement that failed with its label and its error. *)
Fixpoint run_in_order (stmts : list (string * string)) (e : Ext)
  : Ext * list event * option (string * string * Error) :=
  match stmts with
  | [] => (e, [], None)
  | (label, statement) :: rest =>
      match db_executeRawUnsafe statement e with
      | (e1, Returned _) =>
          let '(e2, t, failure) := run_in_order rest e1 in
          (e2, EvExecute statement :: t, failure)
      | (e1, Threw ex) => (e1, [EvExecute statement], Some (label, statement, ex))
      end
  end.

(** The group of a file: its label is the name of the file, and its
    statements are, in this order, the pieces between semicolons of the text
    that the parser gives back for the contents of the file after
    substitution, trimmed, the empty ones left out. *)
Definition is_group_of (contextMap : ContextMap) (e : Ext) (file : string)
    (g : SqlStatementGroup) : Prop :=
  filename g = file
  ∧ ∃ contents ast sql,
      fs_readFileSync file e = Returned contents
      ∧ parser_astify (replaceLine contextMap (Some contents)) = Returned ast
      ∧ parser_sqlify ast = Returned sql
      ∧ statements g
        = filter (λ line, 0 < String.length line)
            (map JsString.trim (JsString.split ";" sql)).

(** How the statement loop ends. *)
Definition loop_outcome (failure : option (string * string * Error)) : outcome unit :=
  match failure with
  | None => Returned tt
  | Some (_, _, ex) => Threw ex
  end.

(** The message written by the [catch] block of [executeSql]. *)
Definition annotated (statement label : string) (ex : Error) : Error :=
  set_message ex
    ("Error executing sql " +:+ JsString.quote +:+ statement +:+ JsString.quote
     +:+ " from " +:+ label +:+ ": " +:+ message ex).

(** Events of the file system. *)
Definition is_file_read (ev : event) : bool :=
  match ev with
  | EvReadFile _ => true
  | _ => false
  end.

(** Events of [executeSql]: file reads and calls on the execution channel. *)
Definition is_executor_event (ev : event) : bool :=
  match ev with
  | EvReadFile _ | EvExecute _ | EvDisconnect => true
  | _ => false
  end.

(** A trace of file reads only: no call on the execution channel. *)
Definition quiet (t : list event) : Prop :=
  Forall (λ ev, is_file_read ev = true) t.

Definition releases (t : list event) : nat := length (filter (λ ev, ev = EvDisconnect) t).

Definition executions (t : list event) : list string :=
  omap (λ ev, match ev with EvExecute statement => Some statement | _ => None end) t.

(** The files read, in the order of the reads. *)
Definition file_reads (t : list event) : list string :=
  omap (λ ev, match ev with EvReadFile file => Some file | _ => None end) t.

(** A statement as the splitter hands it on: not empty, without white space
    around it and without a semicolon. *)
Definition clean_statement (s : string) : Prop :=
  s ≠ "" ∧ JsString.trim s = s ∧ JsString.includes ";" s = false.

End Channel.

(** The four families of helpers, by the name under which they are
    installed on [global]. *)
Inductive helper_kind : Type := TestHelper | GroupHelper.

Definition family (kind : helper_kind) (treatAsFiles : bool) : string :=
  match kind, treatAsFiles with
  | TestHelper, false => "sqlScenario"
  | TestHelper, true => "sqlFileScenario"
  | GroupHelper, false => "describeSqlScenario"
  | GroupHelper, true => "describeSqlFileScenario"
  end.

(** ** A small platform on which the definitions can be run *)

Module Toy.

Record ToyExt : Type := mkToyExt {
  executed : list string;
  released : nat;
}.

#[local] Instance platform : Platform :=
  {| Ext := ToyExt; Value := string; AST := string |}.

Definition boom : Error := ErrorObject 7 "boom".
Definition enoent : Error := ErrorObject 2 "ENOENT".
Definition closed : Error := ErrorObject 9 "closed".

(** Two files; any other name does not exist. *)
Definition readFile (filename : string) (e : ToyExt) : outcome string :=
  if String.eqb filename "/t/a.sql" then Returned "INSERT INTO {T} VALUES (1); SELECT 1 "
  else if String.eqb filename "/t/b.sql" then Returned "DELETE FROM {T}"
  else Threw enoent.

(** The statement [FAIL] is refused, any other statement is recorded. *)
Definition execute (statement : string) (e : ToyExt) : ToyExt * outcome unit :=
  if String.eqb statement "FAIL" then (e, Threw boom)
  else (mkToyExt (executed e ++ [statement]) (released e), Returned tt).

Definition disconnect (e : ToyExt) : ToyExt * outcome unit :=
  (mkToyExt (executed e) (S (released e)), Returned tt).

(** A connection whose release fails. *)
Definition disconnect_failing (e : ToyExt) : ToyExt * outcome unit :=
  (mkToyExt (executed e) (S (released e)), Threw closed).

Abbreviation ToyM := (Mst (@World platform)).

Definition run_now {A} (m : ToyM A) : ToyM A := m.

#[local] Instance collaborators : Collaborators :=
  {| process_env := λ _, None;
     fs_readFileSync := readFile;
     path_parse := λ _, mkParsedPath "/" "/t" "x.test.js" ".js" "x.test";
     parser_astify := λ s, Returned (s : @AST platform);
     parser_sqlify := λ (ast : @AST platform), Returned ast;
     db_executeRawUnsafe := execute;
     db_disconnect := disconnect;
     JSON_stringify := λ args _, "[" +:+ String.concat "," (map (λ _, "null") args) +:+ "]";
     beforeAll := run_now;
     afterAll := run_now;
     global_testPath := "/t/x.test.js";
     global_it := λ _, run_now;
     global_it_only := λ _, run_now;
     global_it_failing := λ _, run_now;
     global_it_skip := λ _ _, ret ("skipped" : @Value platform);
     global_describe := λ _ body, bind body (λ _, ret ("" : @Value platform));
     global_describe_skip := λ _ body, bind body (λ _, ret ("" : @Value platform));
     global_describe_only := λ _ body, bind body (λ _, ret ("" : @Value platform)) |}.

(** The same collaborators with one of the two environment variables set. *)
Definition with_env : Collaborators :=
  {| process_env := λ var, if String.eqb var "TEST_DATABASE_DBNAME" then Some "ci_db" else None;
     fs_readFileSync := readFile;
     path_parse := λ _, mkParsedPath "/" "/t" "x.test.js" ".js" "x.test";
     parser_astify := λ s, Returned (s : @AST platform);
     parser_sqlify := λ (ast : @AST platform), Returned ast;
     db_executeRawUnsafe := execute;
     db_disconnect := disconnect;
     JSON_stringify := λ args _, "[" +:+ String.concat "," (map (λ _, "null") args) +:+ "]";
     beforeAll := run_now;
     afterAll := run_now;
     global_testPath := "/t/x.test.js";
     global_it := λ _, run_now;
     global_it_only := λ _, run_now;
     global_it_failing := λ _, run_now;
     global_it_skip := λ _ _, ret ("skipped" : @Value platform);
     global_describe := λ _ body, bind body (λ _, ret ("" : @Value platform));
     global_describe_skip := λ _ body, bind body (λ _, ret ("" : @Value platform));
     global_describe_only := λ _ body, bind body (λ _, ret ("" : @Value platform)) |}.

(** The same collaborators with a connection whose release fails. *)
Definition with_failing_release : Collaborators :=
  {| process_env := λ _, None;
     fs_readFileSync := readFile;
     path_parse := λ _, mkParsedPath "/" "/t" "x.test.js" ".js" "x.test";
     parser_astify := λ s, Returned (s : @AST platform);
     parser_sqlify := λ (ast : @AST platform), Returned ast;
     db_executeRawUnsafe := execute;
     db_disconnect := disconnect_failing;
     JSON_stringify := λ args _, "[" +:+ String.concat "," (map (λ _, "null") args) +:+ "]";
     beforeAll := run_now;
     afterAll := run_now;
     global_testPath := "/t/x.test.js";
     global_it := λ _, run_now;
     global_it_only := λ _, run_now;
     global_it_failing := λ _, run_now;
     global_it_skip := λ _ _, ret ("skipped" : @Value platform);
     global_describe := λ _ body, bind body (λ _, ret ("" : @Value platform));
     global_describe_skip := λ _ body, bind body (λ _, ret ("" : @Value platform));
     global_describe_only := λ _ body, bind body (λ _, ret ("" : @Value platform)) |}.

Definition start : @World platform := mkWorld platform ∅ (mkToyExt [] 0).

(** A world with one context map, at reference 1. *)
Definition world_with (o : ContextMap) : @World platform :=
  mkWorld platform {[ 1%positive := o ]} (mkToyExt [] 0).

Definition pathname : ParsedPath := mkParsedPath "/" "/t" "x.test.js" ".js" "x.test".

(** Test bodies. *)
Definition passing : option loc → ToyM (@Value platform) :=
  λ _, ret ("done" : @Value platform).
Definition failing : option loc → ToyM (@Value platform) :=
  λ _, throw (ErrorObject 5 "expect failed").


(** A group body that registers one test with the context map it receives. *)
Definition nested : option loc → ToyM (@Value platform) :=
  λ contextMap,
    match contextMap with
    | Some l =>
        sqlScenario [ArgString "inner"; ArgObject l; ArgString "S2"; ArgString "T2";
                     ArgFunction passing]
    | None => ret ("no context" : @Value platform)
    end.

End Toy.

(** * Properties *)

(** ** Strings *)

Module JsStringFacts.
Import JsString.

Lemma append_cons c s r : String c s +:+ r = String c (s +:+ r).
Proof. reflexivity. Qed.

Lemma append_empty r : "" +:+ r = r.
Proof. reflexivity. Qed.

Lemma length_append s : ∀ r, String.length (s +:+ r) = String.length s + String.length r.
Proof. induction s as [|c s IH]; intros r; [done|]. rewrite append_cons. simpl. by rewrite IH. Qed.

Lemma span_word_app s : ∀ w r, span_word s = (w, r) → s = w +:+ r.
Proof.
  induction s as [|c s IH]; simpl; intros w r Hs.
  - by inversion Hs.
  - destruct (is_word_char c).
    + destruct (span_word s) as [w' r'] eqn:E. inversion Hs; subst.
      rewrite append_cons. f_equal. by apply IH.
    + by inversion Hs.
Qed.

Lemma span_word_all s : ∀ w r, span_word s = (w, r) → all_word w = true.
Proof.
  induction s as [|c s IH]; simpl; intros w r Hs.
  - by inversion Hs.
  - destruct (is_word_char c) eqn:Hc.
    + destruct (span_word s) as [w' r'] eqn:E. inversion Hs; subst.
      simpl. rewrite Hc. simpl. by eapply IH.
    + by inversion Hs.
Qed.

Lemma span_word_length s : ∀ w r, span_word s = (w, r) → String.length r ≤ String.length s.
Proof.
  intros w r Hs. apply span_word_app in Hs. subst s.
  rewrite length_append. lia.
Qed.

Lemma span_word_stop w : ∀ c r,
  all_word w = true → is_word_char c = false →
  span_word (w +:+ String c r) = (w, String c r).
Proof.
  induction w as [|a w IH]; intros c r Hw Hc.
  - rewrite append_empty. simpl. by rewrite Hc.
  - simpl in Hw. apply andb_prop in Hw as [Ha Hw].
    rewrite append_cons. simpl. rewrite Ha. by rewrite (IH c r Hw Hc).
Qed.

Lemma match_placeholder_Some s key rest :
  match_placeholder s = Some (key, rest) ↔
  is_identifier key = true ∧ s = "{" +:+ key +:+ "}" +:+ rest.
Proof.
  split.
  - unfold match_placeholder. intros Hm.
    destruct s as [|c s]; [done|].
    destruct (Ascii.eqb_spec c "{") as [->|Hne].
    2:{ destruct c as [[] [] [] [] [] [] [] []]; try done. }
    destruct (span_word s) as [w r] eqn:E.
    destruct w as [|a w]; [done|].
    destruct r as [|b r]; [done|].
    destruct (Ascii.eqb_spec b "}") as [->|Hne].
    2:{ destruct b as [[] [] [] [] [] [] [] []]; try done. }
    inversion Hm; subst. split.
    + apply span_word_all in E. done.
    + apply span_word_app in E. subst s. done.
  - intros [Hid ->]. destruct key as [|a w]; [done|].
    simpl in Hid.
    change ("{" +:+ String a w +:+ "}" +:+ rest)
      with (String "{" (String a w +:+ String "}" rest)).
    unfold match_placeholder.
    rewrite (span_word_stop (String a w) "}" rest); done.
Qed.

Lemma match_placeholder_shorter s key rest :
  match_placeholder s = Some (key, rest) → String.length rest < String.length s.
Proof.
  intros [_ ->]%match_placeholder_Some.
  rewrite !length_append. simpl. lia.
Qed.

Lemma replaceAll_loop_enough f : ∀ fuel s,
  String.length s ≤ fuel →
  replaceAll_loop fuel f s = replaceAll_loop (String.length s) f s.
Proof.
  induction fuel as [fuel IH] using lt_wf_ind. intros s Hlen.
  destruct fuel as [|fuel].
  { destruct s; [done|simpl in Hlen; lia]. }
  destruct s as [|c s].
  { done. }
  cbn [String.length replaceAll_loop]. cbn [String.length] in Hlen.
  destruct (match_placeholder (String c s)) as [[key rest]|] eqn:Hm.
  - apply match_placeholder_shorter in Hm. cbn [String.length] in Hm.
    rewrite (IH fuel) by lia. rewrite (IH (String.length s)) by lia. done.
  - rewrite (IH fuel) by lia. done.
Qed.

Lemma replaceAll_placeholder f key rest :
  is_identifier key = true →
  replaceAll f ("{" +:+ key +:+ "}" +:+ rest) = f key +:+ replaceAll f rest.
Proof.
  intros Hid. unfold replaceAll.
  assert (Hm : match_placeholder ("{" +:+ key +:+ "}" +:+ rest) = Some (key, rest))
    by (by apply match_placeholder_Some).
  pose proof (match_placeholder_shorter _ _ _ Hm) as Hlt.
  destruct (String.length ("{" +:+ key +:+ "}" +:+ rest)) as [|n] eqn:Hn; [lia|].
  cbn [replaceAll_loop]. rewrite Hm.
  rewrite replaceAll_loop_enough by lia. done.
Qed.

Lemma replaceAll_copy f c s :
  match_placeholder (String c s) = None →
  replaceAll f (String c s) = String c (replaceAll f s).
Proof.
  intros Hm. unfold replaceAll. cbn [String.length replaceAll_loop]. by rewrite Hm.
Qed.

Lemma replaceAll_empty f : replaceAll f "" = "".
Proof. done. Qed.

Lemma trimEnd_keeps c s : is_space c = false → trimEnd (String c s) ≠ "".
Proof. intros Hc. simpl. destruct (trimEnd s); [by rewrite Hc|done]. Qed.

Lemma trimStart_empty s : trimStart s = "" ↔ whitespace_only s = true.
Proof.
  induction s as [|c s IH]; simpl; [done|].
  destruct (is_space c); simpl; [done|]. split; discriminate.
Qed.

Lemma trimStart_head s c r : trimStart s = String c r → is_space c = false.
Proof.
  induction s as [|a s IH]; simpl; [done|].
  destruct (is_space a) eqn:Ha; [done|]. by intros [= <- <-].
Qed.

(** [s.trim()] is empty exactly for the strings of white space. *)
Lemma trim_empty s : trim s = "" ↔ whitespace_only s = true.
Proof.
  unfold trim. rewrite <- trimStart_empty.
  destruct (trimStart s) as [|c r] eqn:E; [done|].
  split; [|done]. intros Ht. by apply trimEnd_keeps in Ht; [|eapply trimStart_head].
Qed.

End JsStringFacts.

(** ** The SQL executor *)

Section ExecutorFacts.
Context `{Collaborators}.

Lemma world_eta (w : World) : mkWorld _ (heap w) (ext w) = w.
Proof. by destruct w. Qed.

Lemma quiet_releases t : quiet t → releases t = 0.
Proof.
  unfold releases. induction 1 as [|ev t Hev _ IH]; [done|].
  rewrite filter_cons. case_decide as Hd; [by subst ev|exact IH].
Qed.

Lemma quiet_executions t : quiet t → executions t = [].
Proof.
  unfold executions. induction 1 as [|ev t Hev _ IH]; [done|].
  destruct ev; simpl in *; done.
Qed.

Lemma releases_app t1 t2 : releases (t1 ++ t2) = releases t1 + releases t2.
Proof. unfold releases. by rewrite filter_app, length_app. Qed.

Lemma executions_app t1 t2 : executions (t1 ++ t2) = executions t1 ++ executions t2.
Proof. unfold executions. by rewrite omap_app. Qed.

Lemma replaceWithContext_run contextMap lines w :
  replaceWithContext contextMap lines w
  = (w, [], Returned (map (replaceLine (deref (heap w) contextMap)) lines)).
Proof. reflexivity. Qed.

Lemma splitSql_run text w : ∃ r, splitSql text w = (w, [], r).
Proof.
  unfold splitSql, mbind, Mst_bind, bind.
  destruct (parser_astify text) as [ast|ex]; simpl; [|by eexists].
  destruct (parser_sqlify ast) as [sql|ex]; simpl; by eexists.
Qed.

Lemma fetchSql_run contextMap file w :
  ∃ r, fetchSql contextMap file w = (w, [EvReadFile file], r)
       ∧ ∀ g, r = Returned g → filename g = file.
Proof.
  unfold fetchSql, mbind, Mst_bind, bind, call_ext. rewrite world_eta.
  destruct (fs_readFileSync file (ext w)) as [contents|ex]; [|eexists; split; [done|done]].
  rewrite replaceWithContext_run.
  match goal with |- context [splitSql ?text w] =>
    destruct (splitSql_run text w) as [r ->] end.
  destruct r as [stmts|ex]; simpl; eexists; (split; [done|]).
  - by intros g [= <-].
  - done.
Qed.

Lemma fetch_all_run contextMap (pathname : ParsedPath) files w :
  ∃ t r,
    array_map (λ file, fetchSql contextMap (getFullFilename file pathname)) files w
    = (w, t, r)
    ∧ quiet t
    ∧ ∀ groups, r = Returned groups →
        map filename groups = map (λ file, getFullFilename file pathname) files.
Proof.
  induction files as [|file files IH].
  - exists [], (Returned []). repeat split; [constructor|]. by intros ? [= <-].
  - cbn [array_map]. unfold bind.
    destruct (fetchSql_run contextMap (getFullFilename file pathname) w) as (r & -> & Hr).
    destruct r as [g|ex].
    2:{ eexists _, _. split; [done|]. split; [by repeat constructor|done]. }
    destruct IH as (t & r & -> & Hq & Hg).
    destruct r as [gs|ex]; simpl.
    + eexists _, _. split; [done|]. split.
      { rewrite app_nil_r. by constructor. }
      intros ? [= <-]. simpl. by rewrite (Hr g), (Hg gs).
    + eexists _, _. split; [done|]. split; [by constructor|done].
Qed.

(** Building the statement groups reads files only: the world is unchanged
    and the execution channel is not used. *)
Lemma sqlStatements_run contextMap commands pathname treatAsFiles w :
  ∃ t r, sqlStatements contextMap commands pathname treatAsFiles w = (w, t, r) ∧ quiet t.
Proof.
  unfold sqlStatements. destruct treatAsFiles.
  - destruct (fetch_all_run contextMap pathname (actualCommands commands) w)
      as (t & r & -> & Hq & _). by eexists _, _.
  - unfold mbind, Mst_bind, bind. rewrite replaceWithContext_run.
    match goal with |- context [splitSql ?text w] =>
      destruct (splitSql_run text w) as [r ->] end.
    destruct r; simpl; eexists _, _; (split; [done|constructor]).
Qed.

Lemma statementCount_cons g groups :
  statementCount (g :: groups) = length (statements g) + statementCount groups.
Proof.
  unfold statementCount. simpl.
  generalize (map (λ g0, length (statements g0)) groups) as ns.
  generalize (length (statements g)) as n. intros n ns. revert n.
  induction ns as [|m ns IH]; intros n; simpl; [lia|].
  rewrite (IH (n + m)), (IH m). lia.
Qed.

Lemma statementCount_labelled groups : statementCount groups = length (labelled groups).
Proof.
  induction groups as [|g groups IH]; [done|].
  rewrite statementCount_cons, IH. unfold labelled. simpl.
  by rewrite length_app, length_fmap.
Qed.

Lemma run_in_order_app l1 l2 e :
  run_in_order (l1 ++ l2) e
  = match run_in_order l1 e with
    | (e1, t1, None) =>
        let '(e2, t2, failure) := run_in_order l2 e1 in (e2, t1 ++ t2, failure)
    | (e1, t1, Some failure) => (e1, t1, Some failure)
    end.
Proof.
  revert e. induction l1 as [|[label statement] l1 IH]; intros e; simpl.
  - by destruct (run_in_order l2 e) as [[e2 t2] failure].
  - destruct (db_executeRawUnsafe statement e) as [e1 [[]|ex]]; [|done].
    rewrite IH. destruct (run_in_order l1 e1) as [[e2 t2] [failure|]]; [done|].
    by destruct (run_in_order l2 e2) as [[e3 t3] failure].
Qed.

Lemma run_in_order_label label stmts : ∀ e e' t l s ex,
  run_in_order ((λ statement, (label, statement)) <$> stmts) e = (e', t, Some (l, s, ex)) →
  l = label.
Proof.
  induction stmts as [|s0 ss IH]; intros e e' t l s ex; [done|].
  cbn [fmap list_fmap run_in_order].
  destruct (db_executeRawUnsafe s0 e) as [e1 [[]|ex1]].
  - destruct (run_in_order _ e1) as [[e2 t2] f2] eqn:Hr. intros [= _ _ ->].
    by eapply IH.
  - by intros [= _ _ <- _ _].
Qed.

Lemma execute_one_run f statement (v : Locals) (w : World) :
  (set_locals f;;
   outer (call_ext (EvExecute statement) (db_executeRawUnsafe statement))) (v, w)
  = let '(e, r) := db_executeRawUnsafe statement (ext w) in
    ((f v, mkWorld _ (heap w) e), [EvExecute statement], r).
Proof.
  unfold mbind, Mst_bind, bind, set_locals, modify, outer, call_ext. cbn [fst snd].
  by destruct (db_executeRawUnsafe statement (ext w)) as [e [[]|ex]].
Qed.

(** The inner loop of [executeSql], on the statements of one group. *)
Lemma statements_loop_run label stmts : ∀ v w e t failure,
  currentFilename v = Some label →
  run_in_order ((λ statement, (label, statement)) <$> stmts) (ext w) = (e, t, failure) →
  ∃ v',
    for_of stmts (λ statement,
      set_locals (λ v, mkLocals (currentFilename v) (Some statement));;
      outer (call_ext (EvExecute statement) (db_executeRawUnsafe statement))) (v, w)
    = ((v', mkWorld _ (heap w) e), t, loop_outcome failure)
    ∧ currentFilename v' = Some label
    ∧ ∀ l s ex, failure = Some (l, s, ex) → currentStatement v' = Some s.
Proof.
  induction stmts as [|statement stmts IH]; intros v w e t failure Hv Hrun.
  - simpl in Hrun. injection Hrun as <- <- <-. exists v.
    rewrite world_eta. by repeat split.
  - cbn [fmap list_fmap run_in_order] in Hrun. cbn [for_of].
    unfold bind at 1. rewrite execute_one_run.
    destruct (db_executeRawUnsafe statement (ext w)) as [e1 [[]|ex]].
    + destruct (run_in_order _ e1) as [[e2 t2] failure2] eqn:Hrest.
      injection Hrun as <- <- <-.
      destruct (IH (mkLocals (currentFilename v) (Some statement))
                  (mkWorld _ (heap w) e1) e2 t2 failure2 Hv Hrest)
        as (v' & -> & Hf & Hs).
      exists v'. by repeat split.
    + injection Hrun as <- <- <-. eexists. repeat split; [done|].
      by intros l s ex' [= _ <- _].
Qed.

(** The [try] block of [executeSql] runs the statements of all groups in
    order; when one fails, the local variables name it. *)
Lemma executeStatements_run groups : ∀ v w e t failure,
  run_in_order (labelled groups) (ext w) = (e, t, failure) →
  ∃ v',
    executeStatements groups (v, w) = ((v', mkWorld _ (heap w) e), t, loop_outcome failure)
    ∧ ∀ l s ex, failure = Some (l, s, ex) → v' = mkLocals (Some l) (Some s).
Proof.
  induction groups as [|g groups IH]; intros v w e t failure Hrun.
  - simpl in Hrun. injection Hrun as <- <- <-. exists v.
    rewrite world_eta. by split.
  - unfold labelled in Hrun. cbn [mbind list_bind] in Hrun.
    fold (labelled groups) in Hrun. rewrite run_in_order_app in Hrun.
    destruct (run_in_order _ (ext w)) as [[e1 t1] failure1] eqn:Hg in Hrun.
    unfold executeStatements. cbn [for_of].
    unfold bind at 1, mbind at 1, Mst_bind at 1, bind at 1, set_locals at 1, modify.
    cbn [fst snd app].
    destruct (statements_loop_run (filename g) (statements g)
                (mkLocals (Some (filename g)) (currentStatement v)) w e1 t1 failure1
                eq_refl Hg) as (v1 & -> & Hf1 & Hs1).
    destruct failure1 as [[[l1 s1] ex1]|].
    + injection Hrun as <- <- <-. exists v1. split; [done|].
      intros l s ex [= <- <- <-]. destruct v1 as [cf cs]. simpl in *.
      rewrite Hf1, (Hs1 _ _ _ eq_refl). f_equal. f_equal.
      symmetry. by eapply run_in_order_label.
    + destruct (run_in_order (labelled groups) e1) as [[e2 t2] failure2] eqn:Hrest.
      injection Hrun as <- <- <-.
      destruct (IH v1 (mkWorld _ (heap w) e1) e2 t2 failure2 Hrest) as (v' & Hrun' & Hv').
      fold (executeStatements groups). simpl in Hrun'. rewrite Hrun'.
      exists v'. by split.
Qed.

Lemma executeSql_groups_throw contextMap commands pathname treatAsFiles w t0 ex :
  sqlStatements contextMap commands pathname treatAsFiles w = (w, t0, Threw ex) →
  executeSql contextMap commands pathname treatAsFiles w = (w, t0, Threw ex).
Proof. intros Hg. unfold executeSql, mbind, Mst_bind, bind. by rewrite Hg. Qed.

Lemma executeSql_nothing contextMap commands pathname treatAsFiles w t0 groups :
  sqlStatements contextMap commands pathname treatAsFiles w = (w, t0, Returned groups) →
  statementCount groups = 0 →
  executeSql contextMap commands pathname treatAsFiles w = (w, t0, Returned tt).
Proof.
  intros Hg Hz. unfold executeSql, mbind, Mst_bind, bind. rewrite Hg, Hz. simpl.
  by rewrite app_nil_r.
Qed.

(** A call of [executeSql] with at least one statement, in terms of what the
    database does with the statements in order and with the release. *)
Lemma executeSql_run contextMap commands pathname treatAsFiles w t0 groups
    e t failure e' rd :
  sqlStatements contextMap commands pathname treatAsFiles w = (w, t0, Returned groups) →
  statementCount groups ≠ 0 →
  run_in_order (labelled groups) (ext w) = (e, t, failure) →
  db_disconnect e = (e', rd) →
  executeSql contextMap commands pathname treatAsFiles w
  = (mkWorld _ (heap w) e', t0 ++ t ++ [EvDisconnect],
     match rd with
     | Threw exd => Threw exd
     | Returned _ =>
         match failure with
         | None => Returned tt
         | Some (label, statement, ex) => Threw (annotated statement label ex)
         end
     end).
Proof.
  intros Hg Hnz Hrun Hd. unfold executeSql, mbind, Mst_bind, bind. rewrite Hg.
  destruct (statementCount groups =? 0) eqn:Hc; [apply Nat.eqb_eq in Hc; done|].
  unfold with_locals, try_finally, try_catch.
  destruct (executeStatements_run groups (mkLocals None None) w e t failure Hrun)
    as (v' & -> & Hv').
  destruct failure as [[[label statement] ex]|]; simpl.
  - rewrite (Hv' _ _ _ eq_refl). unfold outer, call_ext. simpl. rewrite Hd.
    rewrite app_nil_r. by destruct rd as [[]|exd].
  - unfold outer, call_ext. simpl. rewrite Hd. by destruct rd as [[]|exd].
Qed.

(** What the in-order run calls: every statement when none fails, and else
    the statements up to and including the first that fails. *)
Lemma run_in_order_executions l : ∀ e e' t failure,
  run_in_order l e = (e', t, failure) →
  t = EvExecute <$> executions t
  ∧ releases t = 0
  ∧ match failure with
    | None => executions t = l.*2
    | Some (label, statement, ex) =>
        ∃ pre post e1,
          l = pre ++ (label, statement) :: post
          ∧ executions t = pre.*2 ++ [statement]
          ∧ run_in_order pre e = (e1, EvExecute <$> pre.*2, None)
          ∧ db_executeRawUnsafe statement e1 = (e', Threw ex)
    end.
Proof.
  induction l as [|[label statement] l IH]; intros e e' t failure; simpl.
  - by intros [= <- <- <-].
  - destruct (db_executeRawUnsafe statement e) as [e1 [[]|ex]] eqn:Hdb.
    + destruct (run_in_order l e1) as [[e2 t2] failure2] eqn:Hrest.
      intros [= <- <- <-]. destruct (IH e1 e2 t2 failure2 Hrest) as (Ht & Hr & Hf).
      split; [simpl; f_equal; exact Ht|]. split.
      { unfold releases in *. rewrite filter_cons. by case_decide. }
      destruct failure2 as [[[l0 s0] ex0]|]; simpl.
      * destruct Hf as (pre & post & e3 & -> & Hex & Hpre & Hfail).
        exists ((label, statement) :: pre), post, e3. simpl. rewrite Hdb, Hpre.
        by rewrite Hex.
      * by rewrite Hf.
    + intros [= <- <- <-]. split; [done|]. split; [done|].
      exists [], l, e. by rewrite Hdb.
Qed.

Lemma labelled_statements groups : (labelled groups).*2 = concat (statements <$> groups).
Proof.
  induction groups as [|g groups IH]; [done|].
  unfold labelled in *. cbn [mbind list_bind fmap list_fmap concat].
  rewrite fmap_app. f_equal; [|exact IH].
  rewrite <- list_fmap_compose. by rewrite list_fmap_id.
Qed.

Lemma is_command_not_blank entry : is_command entry = negb (is_blank entry).
Proof.
  destruct entry as [s|]; [|done]. simpl.
  destruct (JsString.whitespace_only s) eqn:Hs.
  - apply JsStringFacts.trim_empty in Hs. rewrite Hs. simpl.
    by rewrite andb_false_r.
  - destruct (String.eqb_spec s "") as [->|Hne]; [done|]. simpl.
    destruct (JsString.trim s) eqn:Ht.
    + apply JsStringFacts.trim_empty in Ht. congruence.
    + apply bool_decide_eq_true_2. simpl. lia.
Qed.

Lemma actualCommands_filter commands :
  Some <$> actualCommands commands
  = filter (λ entry, is_blank entry = false) (toArray commands).
Proof.
  unfold actualCommands. induction (toArray commands) as [|entry entries IH]; [done|].
  rewrite filter_cons. cbn [omap list_omap]. rewrite is_command_not_blank.
  case_decide as Hb.
  - rewrite Hb. destruct entry as [s|]; [|done]. cbn [negb fmap list_fmap].
    f_equal. exact IH.
  - apply not_false_is_true in Hb. rewrite Hb. exact IH.
Qed.

(** [executeSql] leaves the heap as it is, and only reads files and calls
    the execution channel. *)
Lemma executeSql_events contextMap commands pathname treatAsFiles (w w' : World) t r :
  executeSql contextMap commands pathname treatAsFiles w = (w', t, r) →
  heap w' = heap w ∧ Forall (λ ev, is_executor_event ev = true) t.
Proof.
  intros Hrun.
  destruct (sqlStatements_run contextMap commands pathname treatAsFiles w)
    as (t0 & r0 & Hs & Hq).
  assert (Hq' : Forall (λ ev, is_executor_event ev = true) t0).
  { eapply Forall_impl; [exact Hq|]. by intros []. }
  destruct r0 as [groups|ex].
  2:{ rewrite (executeSql_groups_throw _ _ _ _ _ _ _ Hs) in Hrun.
      by injection Hrun as <- <- <-. }
  destruct (decide (statementCount groups = 0)) as [Hc|Hc].
  { rewrite (executeSql_nothing _ _ _ _ _ _ _ Hs Hc) in Hrun.
    by injection Hrun as <- <- <-. }
  destruct (run_in_order (labelled groups) (ext w)) as [[e tl] failure] eqn:Hl.
  destruct (db_disconnect e) as [e' rd] eqn:Hd.
  rewrite (executeSql_run _ _ _ _ _ _ _ _ _ _ _ _ Hs Hc Hl Hd) in Hrun.
  injection Hrun as <- <- <-. split; [done|].
  destruct (run_in_order_executions _ _ _ _ _ Hl) as (-> & _ & _).
  rewrite !Forall_app. split; [done|]. split; [|by repeat constructor].
  apply Forall_fmap. by apply Forall_true.
Qed.

End ExecutorFacts.

(** ** Claims about template substitution and the executor *)

Section ExecutorClaims.
Context `{Collaborators}.

Lemma prototype_member_text_not_empty key text :
  prototype_member_text key = Some text → text ≠ "".
Proof.
  unfold prototype_member_text, native_function.
  repeat match goal with |- context [String.eqb ?a ?b] => destruct (String.eqb a b) end;
    simpl; intros [= <-]; discriminate.
Qed.

Lemma replacement_cases (contextMap : ContextMap) key :
  (∀ v, contextMap !! key = Some (JStr v) → v ≠ "" → replacement contextMap key = v)
  ∧ (contextMap !! key = Some JUndefined ∨ contextMap !! key = Some (JStr "") →
     replacement contextMap key = "{" +:+ key +:+ "}")
  ∧ (contextMap !! key = None → prototype_member_text key = None →
     replacement contextMap key = "{" +:+ key +:+ "}")
  ∧ (∀ text, contextMap !! key = None → prototype_member_text key = Some text →
     replacement contextMap key = text).
Proof.
  unfold replacement, get_prop. split; [|split; [|split]].
  - intros v -> Hv. simpl. by destruct v.
  - intros [-> | ->]; done.
  - by intros -> ->.
  - by intros text -> ->.
Qed.

(** X14: template substitution, case by case.  A placeholder is an opening
    brace, one or more letters, digits or underscores, and a closing brace.
    A placeholder at the head of a text is replaced by the replacement of
    its key and substitution goes on after it; any other character is
    copied.  The replacement of a key is the value the mapping itself has
    for it when that is a string other than the empty one; the placeholder
    as it is when the mapping has the key with [undefined] or the empty
    string, or has no such key and the key names no member of
    [Object.prototype]; and the text of that member when the mapping has no
    such key and the key names one.  It is never the empty string.  A [null]
    line gives the empty string. *)
Theorem substitution_by_cases (contextMap : ContextMap) :
  (∀ s key rest,
     JsString.match_placeholder s = Some (key, rest)
     ↔ JsString.is_identifier key = true ∧ s = "{" +:+ key +:+ "}" +:+ rest)
  ∧ (∀ key rest, JsString.is_identifier key = true →
       replaceLine contextMap (Some ("{" +:+ key +:+ "}" +:+ rest))
       = replacement contextMap key +:+ replaceLine contextMap (Some rest))
  ∧ (∀ c s, JsString.match_placeholder (String c s) = None →
       replaceLine contextMap (Some (String c s))
       = String c (replaceLine contextMap (Some s)))
  ∧ replaceLine contextMap (Some "") = ""
  ∧ (∀ key v, contextMap !! key = Some (JStr v) → v ≠ "" →
       replacement contextMap key = v)
  ∧ (∀ key, contextMap !! key = Some JUndefined ∨ contextMap !! key = Some (JStr "") →
       replacement contextMap key = "{" +:+ key +:+ "}")
  ∧ (∀ key, contextMap !! key = None → prototype_member_text key = None →
       replacement contextMap key = "{" +:+ key +:+ "}")
  ∧ (∀ key text, contextMap !! key = None → prototype_member_text key = Some text →
       replacement contextMap key = text)
  ∧ (∀ key, replacement contextMap key ≠ "")
  ∧ replaceLine {[ "A" := JStr "1" ]} (Some "select {A}, {B}") = "select 1, {B}"
  ∧ replaceLine contextMap None = ""
  ∧ (∀ l lines w,
       deref (heap w) l = contextMap →
       replaceWithContext l lines w
       = (w, [], Returned (map (replaceLine contextMap) lines))).
Proof.
  split; [intros; apply JsStringFacts.match_placeholder_Some|].
  split; [intros key rest Hid; by apply JsStringFacts.replaceAll_placeholder|].
  split; [intros c s Hm; by apply JsStringFacts.replaceAll_copy|].
  split; [done|].
  split; [intros key v; apply replacement_cases|].
  split; [intros key; apply replacement_cases|].
  split; [intros key; apply replacement_cases|].
  split; [intros key text; apply replacement_cases|].
  split.
  { intros key. unfold replacement, get_prop.
    destruct (contextMap !! key) as [[|[|c v]]|]; try done.
    destruct (prototype_member_text key) as [text|] eqn:E; [|done].
    simpl. by eapply prototype_member_text_not_empty. }
  split; [by vm_compute|].
  split; [done|].
  intros l lines w <-. apply replaceWithContext_run.
Qed.

(** C8: the entries of the source list that are [null], empty or made of
    white space only are dropped before anything else is done, the order of
    the others is kept, and the executor sees the sources only through what
    is left.  When the groups hold no statement at all after substitution and
    splitting, [executeSql] returns normally and has made no call on the
    execution channel.  This covers the call of which nothing is left: for
    files there is then no group at all; for raw input the splitter is given
    the empty text, and the call is a no-op when it returns no statement. *)
Theorem executeSql_blank_entries_and_no_statements
    contextMap commands pathname treatAsFiles (w : World) :
  Some <$> actualCommands commands
    = filter (λ entry, is_blank entry = false) (toArray commands)
  ∧ (∀ commands',
       actualCommands commands' = actualCommands commands →
       executeSql contextMap commands' pathname treatAsFiles w
       = executeSql contextMap commands pathname treatAsFiles w)
  ∧ (∀ w1 t0 groups,
       sqlStatements contextMap commands pathname treatAsFiles w
         = (w1, t0, Returned groups) →
       statementCount groups = 0 →
       executeSql contextMap commands pathname treatAsFiles w = (w, t0, Returned tt)
       ∧ quiet t0 ∧ executions t0 = [] ∧ releases t0 = 0)
  ∧ (actualCommands commands = [] → treatAsFiles = true →
       executeSql contextMap commands pathname treatAsFiles w = (w, [], Returned tt))
  ∧ (actualCommands commands = [] → treatAsFiles = false →
       splitSql "" w = (w, [], Returned []) →
       executeSql contextMap commands pathname treatAsFiles w = (w, [], Returned tt)).
Proof.
  split; [apply actualCommands_filter|].
  split.
  { intros commands' Heq. unfold executeSql, sqlStatements. by rewrite Heq. }
  split.
  { intros w1 t0 groups Hg Hz.
    destruct (sqlStatements_run contextMap commands pathname treatAsFiles w)
      as (t & r & Hrun & Hq).
    rewrite Hrun in Hg. injection Hg as <- <- ->.
    split; [by eapply executeSql_nothing|].
    split; [done|]. split; [by apply quiet_executions|by apply quiet_releases]. }
  split.
  - intros Hnone ->.
    apply (executeSql_nothing _ _ _ _ _ _ []); [|done].
    unfold sqlStatements. by rewrite Hnone.
  - intros Hnone -> Hsplit.
    apply (executeSql_nothing _ _ _ _ _ _ [mkGroup [] "raw input"]); [|done].
    unfold sqlStatements. rewrite Hnone. unfold mbind, Mst_bind, bind.
    rewrite replaceWithContext_run. simpl.
    change (JsString.join ";" []) with "". by rewrite Hsplit.
Qed.

(** C10: [db.$disconnect] is called exactly once when the groups hold at
    least one statement, whether the statement loop succeeds or fails, and is
    not called at all when they hold none: the early return comes before the
    [try]/[finally] that releases the connection. *)
Theorem executeSql_releases_once_unless_nothing
    contextMap commands pathname treatAsFiles (w w1 w' : World) t0 groups t r :
  sqlStatements contextMap commands pathname treatAsFiles w = (w1, t0, Returned groups) →
  executeSql contextMap commands pathname treatAsFiles w = (w', t, r) →
  releases t = if statementCount groups =? 0 then 0 else 1.
Proof.
  intros Hg Hrun.
  destruct (sqlStatements_run contextMap commands pathname treatAsFiles w)
    as (t0' & r0 & Hs & Hq).
  rewrite Hs in Hg. injection Hg as <- <- ->.
  destruct (statementCount groups =? 0) eqn:Hc.
  - apply Nat.eqb_eq in Hc. rewrite (executeSql_nothing _ _ _ _ _ _ _ Hs Hc) in Hrun.
    injection Hrun as <- <- <-. by apply quiet_releases.
  - apply Nat.eqb_neq in Hc.
    destruct (run_in_order (labelled groups) (ext w)) as [[e tl] failure] eqn:Hl.
    destruct (db_disconnect e) as [e' rd] eqn:Hd.
    rewrite (executeSql_run _ _ _ _ _ _ _ _ _ _ _ _ Hs Hc Hl Hd) in Hrun.
    injection Hrun as <- <- <-.
    rewrite !releases_app, (quiet_releases _ Hq).
    destruct (run_in_order_executions _ _ _ _ _ Hl) as (_ & -> & _). done.
Qed.

Lemma fetchSql_group contextMap file (w w1 : World) t g :
  fetchSql contextMap file w = (w1, t, Returned g) →
  is_group_of (deref (heap w) contextMap) (ext w) file g.
Proof.
  unfold fetchSql, mbind, Mst_bind, bind, call_ext, is_group_of. rewrite world_eta.
  destruct (fs_readFileSync file (ext w)) as [contents|ex]; [|done].
  rewrite replaceWithContext_run. simpl.
  unfold splitSql, mbind, Mst_bind, bind.
  destruct (parser_astify _) as [ast|ex] eqn:Hast; simpl; [|done].
  destruct (parser_sqlify ast) as [sql|ex] eqn:Hsql; simpl; [|done].
  intros [= _ _ <-]. simpl. split; [done|]. by exists contents, ast, sql.
Qed.

Lemma fetch_all_groups contextMap (pathname : ParsedPath) files (w : World) :
  ∀ w1 t groups,
    array_map (λ file, fetchSql contextMap (getFullFilename file pathname)) files w
      = (w1, t, Returned groups) →
    Forall2 (λ file g, is_group_of (deref (heap w) contextMap) (ext w)
                         (getFullFilename file pathname) g) files groups.
Proof.
  induction files as [|file files IH]; intros w1 t groups.
  - intros [= _ _ <-]. constructor.
  - cbn [array_map]. unfold bind at 1.
    destruct (fetchSql _ _ w) as [[w2 t2] [g|ex]] eqn:Hf; [|done].
    destruct (fetchSql_run contextMap (getFullFilename file pathname) w) as (r & Hf' & _).
    rewrite Hf' in Hf. injection Hf as <- <- ->.
    unfold bind at 1.
    destruct (array_map _ files w) as [[w3 t3] [gs|ex]] eqn:Hrest; [|done].
    simpl. intros [= _ _ <-]. constructor.
    + by eapply fetchSql_group.
    + by eapply IH.
Qed.

(** C9: with [treatAsFiles] true there is one statement group per file
    entry that is left, in the order of the entries; the group of an entry
    has the statements that the splitter returned for that file, in the
    order in which it returned them.  The statements of all groups are handed
    to the database one after the other: group after group and, inside a
    group, in the order of its statements, each on the state the previous
    one left.  The calls made are those of the in-order run; they are all the
    statements when none fails. *)
Theorem executeSql_files_in_order
    contextMap commands pathname (w w1 w' : World) t0 groups e t failure tr r :
  sqlStatements contextMap commands pathname true w = (w1, t0, Returned groups) →
  run_in_order (labelled groups) (ext w) = (e, t, failure) →
  executeSql contextMap commands pathname true w = (w', tr, r) →
  Forall2 (λ file g, is_group_of (deref (heap w) contextMap) (ext w)
                       (getFullFilename file pathname) g)
    (actualCommands commands) groups
  ∧ map filename groups
    = map (λ file, getFullFilename file pathname) (actualCommands commands)
  ∧ length groups = length (actualCommands commands)
  ∧ (labelled groups).*2 = concat (statements <$> groups)
  ∧ tr = t0 ++ t ++ (if statementCount groups =? 0 then [] else [EvDisconnect])
  ∧ heap w' = heap w
  ∧ ext w' = (if statementCount groups =? 0 then ext w else (db_disconnect e).1)
  ∧ executions t0 = []
  ∧ executions tr `prefix_of` concat (statements <$> groups)
  ∧ (failure = None → executions tr = concat (statements <$> groups))
  ∧ (r = Returned tt → executions tr = concat (statements <$> groups)).
Proof.
  intros Hg Hl Hrun.
  split; [by eapply fetch_all_groups|].
  destruct (fetch_all_run contextMap pathname (actualCommands commands) w)
    as (t0' & r0 & Hs & Hq & Hnames).
  assert (Hs' : sqlStatements contextMap commands pathname true w = (w, t0', r0)) by done.
  rewrite Hs' in Hg. injection Hg as <- -> ->.
  specialize (Hnames groups eq_refl).
  split; [done|].
  split; [by rewrite <- (length_map filename), Hnames, length_map|].
  split; [apply labelled_statements|].
  destruct (run_in_order_executions _ _ _ _ _ Hl) as (Ht & _ & Hf).
  assert (Htr : tr = t0 ++ t ++ (if statementCount groups =? 0 then [] else [EvDisconnect])
                ∧ heap w' = heap w
                ∧ ext w' = (if statementCount groups =? 0 then ext w
                            else (db_disconnect e).1)
                ∧ (r = Returned tt → failure = None)).
  { destruct (statementCount groups =? 0) eqn:Hc.
    - apply Nat.eqb_eq in Hc. rewrite (executeSql_nothing _ _ _ _ _ _ _ Hs' Hc) in Hrun.
      injection Hrun as <- <- <-.
      rewrite statementCount_labelled in Hc.
      destruct (labelled groups); [|done]. simpl in Hl. injection Hl as <- <- <-.
      by rewrite !app_nil_r.
    - apply Nat.eqb_neq in Hc. destruct (db_disconnect e) as [e' rd] eqn:Hd.
      rewrite (executeSql_run _ _ _ _ _ _ _ _ _ _ _ _ Hs' Hc Hl Hd) in Hrun.
      injection Hrun as <- <- <-. split; [done|]. split; [done|]. split; [done|].
      destruct rd as [[]|exd]; [|done]. by destruct failure as [[[? ?] ?]|]. }
  destruct Htr as (-> & Hheap & Hext & Hok).
  split; [done|]. split; [done|]. split; [done|]. split; [by apply quiet_executions|].
  assert (Hex : executions
                  (t0 ++ t ++ (if statementCount groups =? 0 then [] else [EvDisconnect]))
                = executions t).
  { rewrite !executions_app, (quiet_executions _ Hq).
    destruct (statementCount groups =? 0); simpl; by rewrite app_nil_r. }
  rewrite Hex, <- labelled_statements.
  assert (Hnone : failure = None → executions t = (labelled groups).*2)
    by (by intros ->).
  split; [|split; [done|by intros ?%Hok%Hnone]].
  destruct failure as [[[label statement] ex]|].
  - destruct Hf as (pre & post & e1 & -> & -> & _).
    rewrite fmap_app, fmap_cons. simpl. exists post.*2. by rewrite <- app_assoc.
  - by rewrite Hf.
Qed.

(** C4, amended: when the execution of a statement fails, the statements
    before it have been executed, nothing is executed after it in any group
    and the connection is released once.  When that release returns, the
    error that reaches the caller is the object the database threw, its
    message now starting with the text of the statement and the label of
    its group (a file name or [raw input]); when the release itself throws,
    the caller gets the error of the release.  Whenever there is a statement
    to execute, the connection is released exactly once, whether the
    statement loop succeeds or fails. *)
Theorem executeSql_stops_at_first_failure
    contextMap commands pathname treatAsFiles (w w1 : World) t0 groups :
  sqlStatements contextMap commands pathname treatAsFiles w = (w1, t0, Returned groups) →
  (∀ pre label statement post e1 t1 e2 ex e3 rd,
     labelled groups = pre ++ (label, statement) :: post →
     run_in_order pre (ext w) = (e1, t1, None) →
     db_executeRawUnsafe statement e1 = (e2, Threw ex) →
     db_disconnect e2 = (e3, rd) →
     ∃ r,
       executeSql contextMap commands pathname treatAsFiles w
       = (mkWorld _ (heap w) e3, t0 ++ t1 ++ [EvExecute statement; EvDisconnect], r)
       ∧ executions (t0 ++ t1 ++ [EvExecute statement; EvDisconnect])
         = pre.*2 ++ [statement]
       ∧ releases (t0 ++ t1 ++ [EvExecute statement; EvDisconnect]) = 1
       ∧ (rd = Returned tt → r = Threw (annotated statement label ex))
       ∧ (∀ exd, rd = Threw exd → r = Threw exd)
       ∧ same_object (annotated statement label ex) ex
       ∧ message (annotated statement label ex)
         = "Error executing sql " +:+ JsString.quote +:+ statement +:+ JsString.quote
           +:+ " from " +:+ label +:+ ": " +:+ message ex
       ∧ ∃ g, g ∈ groups ∧ label = filename g ∧ statement ∈ statements g)
  ∧ (∀ w' t r,
       statementCount groups ≠ 0 →
       executeSql contextMap commands pathname treatAsFiles w = (w', t, r) →
       releases t = 1)
  ∧ (∀ e tl e' rd,
       statementCount groups ≠ 0 →
       run_in_order (labelled groups) (ext w) = (e, tl, None) →
       db_disconnect e = (e', rd) →
       executeSql contextMap commands pathname treatAsFiles w
       = (mkWorld _ (heap w) e', t0 ++ tl ++ [EvDisconnect],
          match rd with
          | Threw exd => Threw exd
          | Returned _ => Returned tt
          end)).
Proof.
  intros Hg.
  destruct (sqlStatements_run contextMap commands pathname treatAsFiles w)
    as (t0' & r0 & Hs & Hq).
  rewrite Hs in Hg. injection Hg as <- -> ->.
  split; [|split].
  - intros pre label statement post e1 t1 e2 ex e3 rd Hlab Hpre Hfail Hd.
    assert (Hc : statementCount groups ≠ 0).
    { rewrite statementCount_labelled, Hlab, length_app. simpl. lia. }
    assert (Hl : run_in_order (labelled groups) (ext w)
                 = (e2, t1 ++ [EvExecute statement], Some (label, statement, ex))).
    { rewrite Hlab, run_in_order_app, Hpre. simpl. by rewrite Hfail. }
    destruct (run_in_order_executions _ _ _ _ _ Hpre) as (Ht1 & Hr1 & Hx1).
    eexists. split.
    { rewrite (executeSql_run _ _ _ _ _ _ _ _ _ _ _ _ Hs Hc Hl Hd).
      by rewrite <- !app_assoc. }
    split.
    { rewrite !executions_app, (quiet_executions _ Hq), Hx1. done. }
    split.
    { rewrite !releases_app, (quiet_releases _ Hq), Hr1. done. }
    split; [by intros ->|]. split; [by intros exd ->|].
    split; [by destruct ex|]. split; [by destruct ex|].
    assert (Hin : (label, statement) ∈ labelled groups).
    { rewrite Hlab. apply elem_of_app. right. by left. }
    unfold labelled in Hin. apply list_elem_of_bind in Hin as (g & Hin & Hg).
    apply list_elem_of_fmap in Hin as (s & [= -> ->] & Hs').
    by exists g.
  - intros w' t r Hc Hrun.
    destruct (run_in_order (labelled groups) (ext w)) as [[e tl] failure] eqn:Hl.
    destruct (db_disconnect e) as [e' rd] eqn:Hd.
    rewrite (executeSql_run _ _ _ _ _ _ _ _ _ _ _ _ Hs Hc Hl Hd) in Hrun.
    injection Hrun as <- <- <-.
    destruct (run_in_order_executions _ _ _ _ _ Hl) as (_ & Hr & _).
    by rewrite !releases_app, (quiet_releases _ Hq), Hr.
  - intros e tl e' rd Hc Hl Hd.
    by rewrite (executeSql_run _ _ _ _ _ _ _ _ _ _ _ _ Hs Hc Hl Hd).
Qed.

End ExecutorClaims.

(** ** Claims about the scenario builders *)

Section BuilderClaims.
Context `{Collaborators}.

Lemma alloc_fresh (h : Heap) o : h !! (alloc h o).1 = None.
Proof. unfold alloc. simpl. apply not_elem_of_dom, is_fresh. Qed.

Lemma truthy_get_prop (o : ContextMap) key :
  prototype_member_text key = None →
  truthy (get_prop o key) = true ↔ ∃ s, o !! key = Some (JStr s) ∧ s ≠ "".
Proof.
  intros Hkey. unfold get_prop. rewrite Hkey. destruct (o !! key) as [[|s]|]; simpl.
  - split; [done|]. by intros (s & [=] & _).
  - destruct s as [|c s]; simpl.
    + split; [done|]. by intros (s & [= <-] & ?).
    + split; [|done]. intros _. by eexists.
  - split; [done|]. by intros (s & [=] & _).
Qed.

Lemma spread2_lookup (a b : ContextMap) key :
  spread2 a b !! key = match b !! key with Some v => Some v | None => a !! key end.
Proof.
  unfold spread2. destruct (b !! key) as [v|] eqn:Hb.
  - by apply lookup_union_Some_l.
  - by rewrite lookup_union_r.
Qed.

(** The test that a helper registers for four arguments: its context mapping
    is a new copy of the default mapping. *)
Lemma test_of_four_arguments
    (it : string → M Value → M Value) testPath treatAsFiles
    testName a2 a3 sqlSetup sqlTeardown testFunc (w : World) :
  as_commands a2 = Some sqlSetup →
  as_commands a3 = Some sqlTeardown →
  ∃ l,
    buildTestSqlScenario it testPath treatAsFiles
      [ArgString testName; a2; a3; ArgFunction testFunc] w
    = (contextMap ← ret l;
       it testName (testBody contextMap sqlSetup sqlTeardown (path_parse testPath)
                      treatAsFiles testFunc))
        (mkWorld _ (<[l := startingContext]> (heap w)) (ext w))
    ∧ heap w !! l = None.
Proof.
  intros H2 H3. exists (alloc (heap w) startingContext).1. split; [|apply alloc_fresh].
  unfold buildTestSqlScenario, destructure4. simpl. rewrite H2, H3. simpl.
  unfold mbind, Mst_bind, bind, new_object, ret. simpl.
  by destruct (it _ _ _) as [[? ?] ?].
Qed.

(** C6: when the setup SQL fails, the test ends with that failure at once;
    the wrapped body and the teardown SQL are not reached: nothing follows
    the events of the setup, and the outcome is the same whatever the body
    and the teardown are. *)
Theorem testBody_setup_failure
    contextMap sqlSetup sqlTeardown pathname treatAsFiles testFunc (w w1 : World) t1 ex :
  executeSql contextMap sqlSetup pathname treatAsFiles w = (w1, t1, Threw ex) →
  testBody contextMap sqlSetup sqlTeardown pathname treatAsFiles testFunc w
    = (w1, t1, Threw ex)
  ∧ (EvTestFunc ∉ t1)
  ∧ ∀ sqlTeardown' testFunc',
      testBody contextMap sqlSetup sqlTeardown' pathname treatAsFiles testFunc' w
      = (w1, t1, Threw ex).
Proof.
  intros Hsetup.
  assert (Hany : ∀ sqlTeardown' testFunc',
            testBody contextMap sqlSetup sqlTeardown' pathname treatAsFiles testFunc' w
            = (w1, t1, Threw ex)).
  { intros. unfold testBody, mbind, Mst_bind, bind. by rewrite Hsetup. }
  split; [apply Hany|]. split; [|apply Hany].
  destruct (executeSql_events _ _ _ _ _ _ _ _ Hsetup) as [_ Hev].
  intros Hin. rewrite Forall_forall in Hev. by apply Hev in Hin.
Qed.

(** C5: once the setup has succeeded, the wrapped body is called and, when
    it has settled, the teardown SQL is executed once, whether the body
    returned or threw.  A failure of the teardown is what the caller gets,
    also when the body had failed; when the teardown succeeds the caller gets
    what the body produced: its error, or the value it returned. *)
Theorem testBody_teardown_after_body
    contextMap sqlSetup sqlTeardown pathname treatAsFiles testFunc
    (w w1 w2 w3 : World) t1 t2 t3 rb rt :
  executeSql contextMap sqlSetup pathname treatAsFiles w = (w1, t1, Returned tt) →
  testFunc None w1 = (w2, t2, rb) →
  executeSql contextMap sqlTeardown pathname treatAsFiles w2 = (w3, t3, rt) →
  ∃ r,
    testBody contextMap sqlSetup sqlTeardown pathname treatAsFiles testFunc w
    = (w3, t1 ++ EvTestFunc :: t2 ++ t3, r)
    ∧ (∀ ext, rt = Threw ext → r = Threw ext)
    ∧ (rt = Returned tt → r = rb)
    ∧ (∀ exb, rt = Returned tt → rb = Threw exb → r = Threw exb)
    ∧ (∀ v, rt = Returned tt → rb = Returned v → r = Returned v).
Proof.
  intros Hsetup Hbody Hdown.
  unfold testBody, mbind, Mst_bind, bind, try_finally, emit.
  rewrite Hsetup, Hbody, Hdown.
  destruct rt as [[]|ext], rb as [v|exb]; simpl; rewrite ?app_nil_r;
    eexists; (split; [reflexivity|]); repeat split; congruence.
Qed.

(** C7: a helper of any of the four families that is called with a number
    of arguments other than 4 and 5 throws at the call: no test and no group
    is registered (the registration function is not called), no SQL is
    executed and the world is unchanged.  The message names the family and
    ends with the received arguments as [JSON.stringify] renders them. *)
Theorem parameter_mismatch_at_the_call
    (it : string → M Value → M Value) (describeFunc : string → M unit → M Value)
    testPath treatAsFiles args (w : World) :
  length args ≠ 4 → length args ≠ 5 →
  buildTestSqlScenario it testPath treatAsFiles args w
    = (w, [], Threw (NewError ("parameter mismatch in " +:+ family TestHelper treatAsFiles
                               +:+ "(): " +:+ JSON_stringify args (heap w))))
  ∧ buildDescribeSqlScenario describeFunc testPath treatAsFiles args w
    = (w, [], Threw (NewError ("parameter mismatch in " +:+ family GroupHelper treatAsFiles
                               +:+ "(): " +:+ JSON_stringify args (heap w))))
  ∧ ∀ kind kind' files files',
      family kind files = family kind' files' → kind = kind' ∧ files = files'.
Proof.
  intros H4 H5.
  assert ((length args =? 5) = false) as E5 by by apply Nat.eqb_neq.
  assert ((length args =? 4) = false) as E4 by by apply Nat.eqb_neq.
  split; [|split].
  - unfold buildTestSqlScenario. rewrite E5, E4. by destruct treatAsFiles.
  - unfold buildDescribeSqlScenario. rewrite E5, E4. by destruct treatAsFiles.
  - by intros [] [] [] [].
Qed.

(** C1, amended: for a call of a test helper with five arguments, the
    supplied mapping is the context mapping of the test, the same object,
    when its value for [describeBlockName] is truthy, that is a string other
    than the empty one; otherwise (the key is missing, or bound to
    [undefined] or to the empty string) the context mapping is a new object
    that holds the default mapping with the supplied mapping on top, the
    keys of the caller winning. *)
Theorem test_context_of_five_arguments
    (it : string → M Value → M Value) testPath treatAsFiles
    testName providedMap a3 a4 sqlSetup sqlTeardown testFunc (w : World) :
  as_commands a3 = Some sqlSetup →
  as_commands a4 = Some sqlTeardown →
  let supplied := deref (heap w) providedMap in
  buildTestSqlScenario it testPath treatAsFiles
      [ArgString testName; ArgObject providedMap; a3; a4; ArgFunction testFunc] w
    = (contextMap ← testContext providedMap;
       it testName (testBody contextMap sqlSetup sqlTeardown (path_parse testPath)
                      treatAsFiles testFunc)) w
  ∧ (truthy (get_prop supplied "describeBlockName") = true
     ↔ ∃ s, supplied !! "describeBlockName" = Some (JStr s) ∧ s ≠ "")
  ∧ (truthy (get_prop supplied "describeBlockName") = true →
       testContext providedMap w = (w, [], Returned providedMap))
  ∧ (truthy (get_prop supplied "describeBlockName") = false →
       ∃ l, testContext providedMap w
            = (mkWorld _ (<[l := spread2 startingContext supplied]> (heap w)) (ext w),
               [], Returned l)
            ∧ heap w !! l = None
            ∧ ∀ key, spread2 startingContext supplied !! key
                     = match supplied !! key with
                       | Some v => Some v
                       | None => startingContext !! key
                       end).
Proof.
  intros H3 H4 supplied. split; [|split; [|split]].
  - unfold buildTestSqlScenario, destructure5. simpl. by rewrite H3, H4.
  - by apply truthy_get_prop.
  - intros Ht. unfold testContext, mbind, Mst_bind, bind, gets.
    fold supplied. by rewrite Ht.
  - intros Ht. exists (alloc (heap w) (spread2 startingContext supplied)).1.
    split; [|split].
    + unfold testContext, mbind, Mst_bind, bind, gets. fold supplied. by rewrite Ht.
    + apply alloc_fresh.
    + intros key. apply spread2_lookup.
Qed.

(** The context mapping of a group, as the code builds it, is a new object
    that holds the default mapping and, for five arguments, the supplied
    mapping on top of it, and it is the object handed to the group body and
    used by the setup and teardown hooks; but the key [describeBlockName] is
    bound to [undefined], not to the name of the group, unless the caller
    supplies that key. *)
Theorem group_context_name_is_undefined
    (describeFunc : string → M unit → M Value) testPath treatAsFiles
    describeBlockName a2 a3 sqlSetup sqlTeardown describeBlock (w : World) :
  as_commands a2 = Some sqlSetup →
  as_commands a3 = Some sqlTeardown →
  ∃ l,
    buildDescribeSqlScenario describeFunc testPath treatAsFiles
      [ArgString describeBlockName; a2; a3; ArgFunction describeBlock] w
    = describeFunc describeBlockName
        (describeBody l sqlSetup sqlTeardown (path_parse testPath) treatAsFiles
           describeBlock)
        (mkWorld _ (<[l := spread2 blockContext startingContext]> (heap w)) (ext w))
    ∧ heap w !! l = None
    ∧ spread2 blockContext startingContext !! "describeBlockName" = Some JUndefined
    ∧ ∀ key, key ≠ "describeBlockName" →
        spread2 blockContext startingContext !! key = startingContext !! key.
Proof.
  intros H2 H3. exists (alloc (heap w) (spread2 blockContext startingContext)).1.
  split; [|split; [|split]].
  - unfold buildDescribeSqlScenario, destructure4. simpl. rewrite H2, H3. simpl.
    unfold mbind, Mst_bind, bind, describeContext, new_object. simpl.
    by destruct (describeFunc _ _ _) as [[? ?] ?].
  - apply alloc_fresh.
  - rewrite spread2_lookup. unfold startingContext.
    rewrite lookup_insert_ne by done. by rewrite lookup_singleton_ne.
  - intros key Hkey. rewrite spread2_lookup.
    destruct (startingContext !! key) eqn:E; [done|].
    unfold blockContext. by rewrite lookup_singleton_ne.
Qed.

(** The same for five arguments: the supplied mapping goes on top of the
    defaults, and [describeBlockName] is the caller's when the caller has
    one, [undefined] otherwise. *)
Lemma group_context_of_five_arguments
    (describeFunc : string → M unit → M Value) testPath treatAsFiles
    describeBlockName providedMap a3 a4 sqlSetup sqlTeardown describeBlock (w : World) :
  as_commands a3 = Some sqlSetup →
  as_commands a4 = Some sqlTeardown →
  ∃ l,
    buildDescribeSqlScenario describeFunc testPath treatAsFiles
      [ArgString describeBlockName; ArgObject providedMap; a3; a4;
       ArgFunction describeBlock] w
    = describeFunc describeBlockName
        (describeBody l sqlSetup sqlTeardown (path_parse testPath) treatAsFiles
           describeBlock)
        (mkWorld _ (<[l := spread3 blockContext startingContext
                             (deref (heap w) providedMap)]> (heap w)) (ext w))
    ∧ heap w !! l = None
    ∧ ∀ key,
        spread3 blockContext startingContext (deref (heap w) providedMap) !! key
        = match deref (heap w) providedMap !! key with
          | Some v => Some v
          | None => spread2 blockContext startingContext !! key
          end.
Proof.
  intros H3 H4.
  exists (alloc (heap w) (spread3 blockContext startingContext
                            (deref (heap w) providedMap))).1.
  split; [|split].
  - unfold buildDescribeSqlScenario, destructure5. simpl. rewrite H3, H4. simpl.
    unfold mbind, Mst_bind, bind, describeContext, new_object, gets. simpl.
    by destruct (describeFunc _ _ _) as [[? ?] ?].
  - apply alloc_fresh.
  - intros key. apply (spread2_lookup (spread2 blockContext startingContext)).
Qed.

End BuilderClaims.

(** ** The claims on the small platform *)

Section OnToy.
Import Toy.
Existing Instances platform collaborators.

Lemma substitution_by_cases_witness :
  replaceLine {[ "A" := JStr "1" ]} (Some ("{" +:+ "A" +:+ "}" +:+ ", {B}"))
    = replacement {[ "A" := JStr "1" ]} "A" +:+ replaceLine {[ "A" := JStr "1" ]} (Some ", {B}")
  ∧ replaceLine {[ "A" := JStr "1" ]} (Some "{A")
    = String "{" (replaceLine {[ "A" := JStr "1" ]} (Some "A"))
  ∧ replacement {[ "A" := JStr "1" ]} "A" = "1"
  ∧ replacement {[ "A" := JStr "" ]} "A" = "{" +:+ "A" +:+ "}"
  ∧ replacement {[ "A" := JStr "1" ]} "B" = "{" +:+ "B" +:+ "}"
  ∧ replacement {[ "A" := JStr "1" ]} "toString" = "function toString() { [native code] }"
  ∧ replaceWithContext 1%positive [Some "select {A}, {B}"; None]
      (world_with {[ "A" := JStr "1" ]})
    = (world_with {[ "A" := JStr "1" ]}, [], Returned ["select 1, {B}"; ""]).
Proof.
  destruct (substitution_by_cases {[ "A" := JStr "1" ]})
    as (_ & Htoken & Hcopy & _ & Hvalue & _ & Hmissing & Hmember & _ & _ & _ & Hlines).
  destruct (substitution_by_cases {[ "A" := JStr "" ]})
    as (_ & _ & _ & _ & _ & Hfalsy & _).
  split; [apply Htoken; reflexivity|].
  split; [apply Hcopy; reflexivity|].
  split; [apply Hvalue; [reflexivity|discriminate]|].
  split; [apply Hfalsy; right; reflexivity|].
  split; [apply Hmissing; reflexivity|].
  split; [apply Hmember; reflexivity|].
  apply (Hlines 1%positive [Some "select {A}, {B}"; None]
           (world_with {[ "A" := JStr "1" ]})).
  reflexivity.
Defined.

(** C3: the line [select {A}, {constructor}] against the mapping [{A: "1"}].
    The mapping has no key [constructor], so the placeholder should stay as
    it is; the code reads [contextMap["constructor"]], finds the function
    that every plain object inherits from [Object.prototype], which is
    truthy, and puts its text in the place of the placeholder. *)
Lemma replaceWithContext_inherited_member :
  ({[ "A" := JStr "1" ]} : ContextMap) !! "constructor" = None
  ∧ replaceWithContext 1%positive [Some "select {A}, {constructor}"]
      (world_with {[ "A" := JStr "1" ]})
    = (world_with {[ "A" := JStr "1" ]}, [],
       Returned ["select 1, function Object() { [native code] }"])
  ∧ replaceLine {[ "A" := JStr "1" ]} (Some "select {A}, {constructor}")
    ≠ "select 1, {constructor}".
Proof.
  split; [reflexivity|]. split; [vm_compute; reflexivity|]. vm_compute. discriminate.
Qed.

Lemma executeSql_blank_entries_and_no_statements_witness :
  executeSql 1%positive (OneCommand (Some " ; ")) pathname false start
    = (start, [], Returned tt)
  ∧ executeSql 1%positive (ManyCommands [Some "  "; None; Some ""]) pathname true start
    = (start, [], Returned tt)
  ∧ executeSql 1%positive (ManyCommands [Some "  "; None; Some ""]) pathname false start
    = (start, [], Returned tt)
  ∧ executeSql 1%positive (ManyCommands [Some "  "; None; Some "b.sql"]) pathname true
      (world_with {[ "T" := JStr "t" ]})
    = executeSql 1%positive (OneCommand (Some "b.sql")) pathname true
        (world_with {[ "T" := JStr "t" ]}).
Proof.
  destruct (executeSql_blank_entries_and_no_statements 1%positive
              (OneCommand (Some " ; ")) pathname false start)
    as (_ & _ & Hzero & _).
  destruct (executeSql_blank_entries_and_no_statements 1%positive
              (ManyCommands [Some "  "; None; Some ""]) pathname true start)
    as (_ & _ & _ & Hfiles & _).
  destruct (executeSql_blank_entries_and_no_statements 1%positive
              (ManyCommands [Some "  "; None; Some ""]) pathname false start)
    as (_ & _ & _ & _ & Hraw).
  destruct (executeSql_blank_entries_and_no_statements 1%positive
              (OneCommand (Some "b.sql")) pathname true (world_with {[ "T" := JStr "t" ]}))
    as (_ & Hsame & _).
  split; [|split; [|split]].
  - apply (Hzero start [] [mkGroup [] "raw input"]); reflexivity.
  - apply Hfiles; reflexivity.
  - apply Hraw; reflexivity.
  - apply Hsame. reflexivity.
Defined.

Lemma executeSql_releases_once_unless_nothing_witness :
  releases [EvExecute "x"; EvExecute "FAIL"; EvDisconnect] = 1.
Proof.
  apply (executeSql_releases_once_unless_nothing 1%positive (OneCommand (Some "x; FAIL; y"))
           pathname false start start (mkWorld platform ∅ (mkToyExt ["x"] 1)) []
           [mkGroup ["x"; "FAIL"; "y"] "raw input"]
           [EvExecute "x"; EvExecute "FAIL"; EvDisconnect]
           (Threw (annotated "FAIL" "raw input" boom))).
  - reflexivity.
  - vm_compute. reflexivity.
Defined.

Lemma executeSql_files_in_order_witness :
  executions [EvReadFile "/t/a.sql"; EvReadFile "/t/b.sql";
              EvExecute "INSERT INTO t VALUES (1)"; EvExecute "SELECT 1";
              EvExecute "DELETE FROM t"; EvDisconnect]
  = concat (statements <$> [mkGroup ["INSERT INTO t VALUES (1)"; "SELECT 1"] "/t/a.sql";
                            mkGroup ["DELETE FROM t"] "/t/b.sql"]).
Proof.
  apply (executeSql_files_in_order 1%positive
           (ManyCommands [Some " a.sql "; None; Some "b.sql"]) pathname
           (world_with {[ "T" := JStr "t" ]}) (world_with {[ "T" := JStr "t" ]})
           (mkWorld platform {[ 1%positive := {[ "T" := JStr "t" ]} ]}
              (mkToyExt ["INSERT INTO t VALUES (1)"; "SELECT 1"; "DELETE FROM t"] 1))
           [EvReadFile "/t/a.sql"; EvReadFile "/t/b.sql"]
           [mkGroup ["INSERT INTO t VALUES (1)"; "SELECT 1"] "/t/a.sql";
            mkGroup ["DELETE FROM t"] "/t/b.sql"]
           (mkToyExt ["INSERT INTO t VALUES (1)"; "SELECT 1"; "DELETE FROM t"] 0)
           [EvExecute "INSERT INTO t VALUES (1)"; EvExecute "SELECT 1";
            EvExecute "DELETE FROM t"]
           None
           [EvReadFile "/t/a.sql"; EvReadFile "/t/b.sql";
            EvExecute "INSERT INTO t VALUES (1)"; EvExecute "SELECT 1";
            EvExecute "DELETE FROM t"; EvDisconnect]
           (Returned tt)).
  - vm_compute. reflexivity.
  - vm_compute. reflexivity.
  - vm_compute. reflexivity.
  - reflexivity.
Defined.

Lemma executeSql_stops_at_first_failure_witness :
  (∃ r,
    executeSql 1%positive (ManyCommands [Some "x"; Some "FAIL; y"]) pathname false start
    = (mkWorld platform ∅ (mkToyExt ["x"] 1),
       [] ++ [EvExecute "x"] ++ [EvExecute "FAIL"; EvDisconnect], r)
    ∧ r = Threw (ErrorObject 7
                   ("Error executing sql " +:+ JsString.quote +:+ "FAIL" +:+ JsString.quote
                    +:+ " from raw input: boom")))
  ∧ releases [EvExecute "x"; EvExecute "FAIL"; EvDisconnect] = 1
  ∧ executeSql 1%positive (OneCommand (Some "x; y")) pathname false start
    = (mkWorld platform ∅ (mkToyExt ["x"; "y"] 1),
       [] ++ [EvExecute "x"; EvExecute "y"] ++ [EvDisconnect], Returned tt).
Proof.
  destruct (executeSql_stops_at_first_failure 1%positive
              (ManyCommands [Some "x"; Some "FAIL; y"]) pathname false start start []
              [mkGroup ["x"; "FAIL"; "y"] "raw input"])
    as (Hfail & Honce & _); [reflexivity|].
  destruct (executeSql_stops_at_first_failure 1%positive
              (OneCommand (Some "x; y")) pathname false start start []
              [mkGroup ["x"; "y"] "raw input"])
    as (_ & _ & Hsuccess); [reflexivity|].
  split; [|split].
  - destruct (Hfail [("raw input", "x")] "raw input" "FAIL" [("raw input", "y")]
                (mkToyExt ["x"] 0) [EvExecute "x"] (mkToyExt ["x"] 0) boom
                (mkToyExt ["x"] 1) (Returned tt))
      as (r & Hrun & _ & _ & Hr & _); [reflexivity..|].
    exists r. split; [exact Hrun|]. rewrite (Hr eq_refl). reflexivity.
  - apply (Honce (mkWorld platform ∅ (mkToyExt ["x"] 1))
             [EvExecute "x"; EvExecute "FAIL"; EvDisconnect]
             (Threw (annotated "FAIL" "raw input" boom)));
      [vm_compute; lia|vm_compute; reflexivity].
  - apply (Hsuccess (mkToyExt ["x"; "y"] 0) [EvExecute "x"; EvExecute "y"]
             (mkToyExt ["x"; "y"] 1) (Returned tt)); [vm_compute; lia|reflexivity..].
Defined.

(** C4 as stated fails: the statement [FAIL] is refused by the database with
    the error object 7, and the release of the connection then throws the
    error object 9.  The caller gets object 9, not the annotated object 7. *)
Lemma release_failure_replaces_the_statement_error :
  @db_executeRawUnsafe platform with_failing_release "FAIL" (mkToyExt [] 0)
    = (mkToyExt [] 0, Threw boom)
  ∧ @executeSql platform with_failing_release 1%positive (OneCommand (Some "FAIL"))
      pathname false start
    = (mkWorld platform ∅ (mkToyExt [] 1), [EvExecute "FAIL"; EvDisconnect], Threw closed)
  ∧ ¬ same_object closed boom
  ∧ Threw (A:=unit) closed ≠ Threw (annotated "FAIL" "raw input" boom).
Proof.
  split; [reflexivity|]. split; [vm_compute; reflexivity|].
  split; [vm_compute; discriminate|]. vm_compute. discriminate.
Qed.

Lemma testBody_setup_failure_witness :
  testBody 1%positive (OneCommand (Some "FAIL")) (OneCommand (Some "T1")) pathname false
    passing start
  = (mkWorld platform ∅ (mkToyExt [] 1), [EvExecute "FAIL"; EvDisconnect],
     Threw (annotated "FAIL" "raw input" boom)).
Proof.
  apply (testBody_setup_failure 1%positive (OneCommand (Some "FAIL"))
           (OneCommand (Some "T1")) pathname false passing start).
  reflexivity.
Defined.

Lemma testBody_teardown_after_body_witness :
  ∃ r,
    testBody 1%positive (OneCommand (Some "S1")) (OneCommand (Some "T1")) pathname false
      failing start
    = (mkWorld platform ∅ (mkToyExt ["S1"; "T1"] 2),
       [EvExecute "S1"; EvDisconnect] ++ EvTestFunc :: [] ++ [EvExecute "T1"; EvDisconnect],
       r)
    ∧ r = Threw (ErrorObject 5 "expect failed").
Proof.
  destruct (testBody_teardown_after_body 1%positive (OneCommand (Some "S1"))
              (OneCommand (Some "T1")) pathname false failing
              start (mkWorld platform ∅ (mkToyExt ["S1"] 1)) (mkWorld platform ∅ (mkToyExt ["S1"] 1))
              (mkWorld platform ∅ (mkToyExt ["S1"; "T1"] 2))
              [EvExecute "S1"; EvDisconnect] [] [EvExecute "T1"; EvDisconnect]
              (Threw (ErrorObject 5 "expect failed")) (Returned tt))
    as (r & Hrun & _ & Hr & _); [reflexivity..|].
  exists r. split; [exact Hrun|]. exact (Hr eq_refl).
Defined.

Lemma parameter_mismatch_at_the_call_witness :
  sqlFileScenario [ArgString "t"; ArgString "a.sql"; ArgFunction passing] start
  = (start, [], Threw (NewError "parameter mismatch in sqlFileScenario(): [null,null,null]")).
Proof.
  assert (H4 : length [ArgString "t"; ArgString "a.sql"; ArgFunction passing] ≠ 4)
    by (simpl; lia).
  assert (H5 : length [ArgString "t"; ArgString "a.sql"; ArgFunction passing] ≠ 5)
    by (simpl; lia).
  exact (proj1 (parameter_mismatch_at_the_call global_it global_describe global_testPath
                  true [ArgString "t"; ArgString "a.sql"; ArgFunction passing] start H4 H5)).
Defined.

Lemma test_context_of_five_arguments_witness :
  testContext 1%positive (world_with {[ "describeBlockName" := JStr "group" ]})
  = (world_with {[ "describeBlockName" := JStr "group" ]}, [], Returned 1%positive).
Proof.
  apply (test_context_of_five_arguments global_it global_testPath false "t" 1%positive
           (ArgString "S1") (ArgString "T1") (OneCommand (Some "S1")) (OneCommand (Some "T1"))
           passing (world_with {[ "describeBlockName" := JStr "group" ]}));
    reflexivity.
Defined.

(** C1 as stated fails: the supplied mapping, object 1, has the key
    [describeBlockName], bound to the empty string.  The context mapping of
    the test is not that object but a new one, object 2, which holds the
    defaults as well: the setup SQL [SELECT {TEST_DATABASE_DBNAME}] is
    executed with the default database name in it, although the supplied
    mapping has no such key. *)
Lemma test_context_key_present_but_copied :
  is_Some (deref (heap (world_with {[ "describeBlockName" := JStr "" ]})) 1%positive
             !! "describeBlockName")
  ∧ (∃ w' l,
      testContext 1%positive (world_with {[ "describeBlockName" := JStr "" ]})
        = (w', [], Returned l)
      ∧ l ≠ 1%positive
      ∧ deref (heap w') l !! "TEST_DATABASE_DBNAME" = Some (JStr "am_admin_test")
      ∧ deref (heap w') 1%positive !! "TEST_DATABASE_DBNAME" = None)
  ∧ (sqlScenario [ArgString "t"; ArgObject 1%positive;
                  ArgString "SELECT {TEST_DATABASE_DBNAME}"; ArgString "T1";
                  ArgFunction passing]
       (world_with {[ "describeBlockName" := JStr "" ]})).1.2
    = [EvExecute "SELECT am_admin_test"; EvDisconnect; EvTestFunc;
       EvExecute "T1"; EvDisconnect].
Proof.
  split; [by eexists|]. split.
  - eexists _, 2%positive.
    split; [vm_compute; reflexivity|]. split; [discriminate|].
    split; vm_compute; reflexivity.
  - vm_compute. reflexivity.
Qed.

(** C2: [describeSqlScenario("grp", "S1", "T1", body)], where the body
    registers a test with the context map it is given.  The context mapping
    of the group is object 1, and is the one the body receives; its key
    [describeBlockName] is bound to [undefined], not to ["grp"].  The test
    registered by the body then does not use object 1 as it is, but a copy,
    object 2. *)
Lemma describeSqlScenario_group_name_undefined :
  ∃ w' r,
    describeSqlScenario [ArgString "grp"; ArgString "S1"; ArgString "T1"; ArgFunction nested]
      start
    = (w', [EvExecute "S1"; EvDisconnect; EvExecute "T1"; EvDisconnect; EvDescribeBlock 1;
            EvExecute "S2"; EvDisconnect; EvTestFunc; EvExecute "T2"; EvDisconnect], r)
    ∧ deref (heap w') 1%positive !! "describeBlockName" = Some JUndefined
    ∧ deref (heap w') 1%positive !! "describeBlockName" ≠ Some (JStr "grp")
    ∧ dom (heap w') = {[ 1%positive; 2%positive ]}
    ∧ (testContext 1%positive w').2 ≠ Returned 1%positive.
Proof.
  eexists _, _. split; [vm_compute; reflexivity|].
  split; [vm_compute; reflexivity|]. split; [vm_compute; discriminate|].
  split; [vm_compute; reflexivity|]. vm_compute; discriminate.
Qed.

End OnToy.

(** * Further properties *)

(** ** Trimming and splitting *)

Module JsStringMore.
Import JsString JsStringFacts.

Lemma append_assoc s1 : ∀ s2 s3, (s1 +:+ s2) +:+ s3 = s1 +:+ s2 +:+ s3.
Proof.
  induction s1 as [|c s1 IH]; intros s2 s3; [done|].
  rewrite !append_cons. by rewrite IH.
Qed.

Lemma trimEnd_idempotent s : trimEnd (trimEnd s) = trimEnd s.
Proof.
  induction s as [|c s IH]; [done|]. cbn [trimEnd].
  destruct (trimEnd s) as [|a r] eqn:E.
  - destruct (is_space c) eqn:Hc; [done|]. cbn [trimEnd]. by rewrite Hc.
  - cbn [trimEnd] in *. by rewrite IH.
Qed.

Lemma trimEnd_head c s : is_space c = false → ∃ r, trimEnd (String c s) = String c r.
Proof.
  intros Hc. cbn [trimEnd]. destruct (trimEnd s); [rewrite Hc|]; by eexists.
Qed.

Lemma trimStart_fixed c s : is_space c = false → trimStart (String c s) = String c s.
Proof. intros Hc. simpl. by rewrite Hc. Qed.

(** [s.trim().trim()] is [s.trim()]. *)
Lemma trim_idempotent s : trim (trim s) = trim s.
Proof.
  unfold trim. destruct (trimStart s) as [|c r] eqn:E; [done|].
  apply trimStart_head in E.
  destruct (trimEnd_head c r E) as [r' Hr]. rewrite Hr.
  rewrite (trimStart_fixed c r' E). rewrite <- Hr. apply trimEnd_idempotent.
Qed.

Lemma includes_trimStart c s : includes c (trimStart s) = true → includes c s = true.
Proof.
  induction s as [|a s IH]; [done|]. simpl.
  destruct (is_space a); [|done]. intros ->%IH. apply orb_true_r.
Qed.

Lemma includes_trimEnd c s : includes c (trimEnd s) = true → includes c s = true.
Proof.
  induction s as [|a s IH]; [done|]. cbn [trimEnd].
  destruct (trimEnd s) as [|b r] eqn:E.
  - destruct (is_space a); [done|]. simpl. rewrite orb_false_r. by intros ->.
  - cbn [includes] in *. intros [->|H]%orb_true_iff; [done|].
    rewrite (IH H). by rewrite orb_true_r.
Qed.

Lemma includes_trim c s : includes c (trim s) = true → includes c s = true.
Proof. intros H. by apply includes_trimStart, includes_trimEnd. Qed.

(** The pieces of [s.split(sep)] do not hold the separator. *)
Lemma split_pieces sep s : ∀ piece, piece ∈ split sep s → includes sep piece = false.
Proof.
  induction s as [|c s IH]; intros piece; cbn [split].
  - by intros ->%list_elem_of_singleton.
  - destruct (Ascii.eqb c sep) eqn:Hc.
    + intros [->|H]%elem_of_cons; [done|by apply IH].
    + destruct (split sep s) as [|p ps] eqn:E.
      * intros ->%list_elem_of_singleton. simpl. by rewrite Hc.
      * intros [->|H]%elem_of_cons.
        -- simpl. rewrite Hc. apply IH. by left.
        -- apply IH. by right.
Qed.

Lemma replaceAll_no_brace f s : includes "{" s = false → replaceAll f s = s.
Proof.
  induction s as [|c s IH]; [done|]. simpl.
  intros [Hc Hs]%orb_false_iff.
  rewrite replaceAll_copy; [by rewrite IH|].
  unfold match_placeholder.
  destruct c as [[] [] [] [] [] [] [] []]; try done.
Qed.

Lemma placeholders_loop_enough : ∀ fuel s,
  String.length s ≤ fuel →
  placeholders_loop fuel s = placeholders_loop (String.length s) s.
Proof.
  induction fuel as [fuel IH] using lt_wf_ind. intros s Hlen.
  destruct fuel as [|fuel].
  { destruct s; [done|simpl in Hlen; lia]. }
  destruct s as [|c s]; [done|].
  cbn [String.length placeholders_loop]. cbn [String.length] in Hlen.
  destruct (match_placeholder (String c s)) as [[key rest]|] eqn:Hm.
  - apply match_placeholder_shorter in Hm. cbn [String.length] in Hm.
    rewrite (IH fuel) by lia. rewrite (IH (String.length s)) by lia. done.
  - rewrite (IH fuel) by lia. done.
Qed.

Lemma placeholders_head s key rest :
  match_placeholder s = Some (key, rest) → placeholders s = key :: placeholders rest.
Proof.
  intros Hm. pose proof (match_placeholder_shorter _ _ _ Hm) as Hlt.
  unfold placeholders. destruct (String.length s) as [|n] eqn:Hn; [lia|].
  cbn [placeholders_loop]. rewrite Hm. by rewrite placeholders_loop_enough by lia.
Qed.

Lemma placeholders_copy c s :
  match_placeholder (String c s) = None → placeholders (String c s) = placeholders s.
Proof.
  intros Hm. unfold placeholders. cbn [String.length placeholders_loop]. by rewrite Hm.
Qed.

Lemma replaceAll_identity f : ∀ s,
  (∀ key, key ∈ placeholders s → f key = "{" +:+ key +:+ "}") →
  replaceAll f s = s.
Proof.
  intros s. remember (String.length s) as n eqn:Hn.
  revert s Hn. induction n as [n IH] using lt_wf_ind. intros s -> Hf.
  destruct s as [|c s]; [done|].
  destruct (match_placeholder (String c s)) as [[key rest]|] eqn:Hm.
  - pose proof (match_placeholder_shorter _ _ _ Hm) as Hlt.
    rewrite (placeholders_head _ _ _ Hm) in Hf.
    apply match_placeholder_Some in Hm as [Hid Hs]. rewrite Hs.
    rewrite replaceAll_placeholder by done.
    rewrite (IH _ Hlt rest eq_refl), (Hf key).
    + change ("{" +:+ key +:+ "}") with ("{" +:+ (key +:+ "}")).
      by rewrite !append_assoc.
    + by left.
    + intros k Hk. apply Hf. by right.
  - rewrite (placeholders_copy _ _ Hm) in Hf.
    rewrite replaceAll_copy by done. f_equal.
    apply (IH (String.length s)); [simpl; lia|done|done].
Qed.

Lemma split_not_empty sep s : split sep s ≠ [].
Proof.
  destruct s as [|c s]; [done|]. cbn [split].
  destruct (Ascii.eqb c sep); [done|]. by destruct (split sep s).
Qed.

Lemma split_blank sep s : forallb whitespace_only (split sep s) = blank_between sep s.
Proof.
  induction s as [|c s IH]; [done|]. cbn [split blank_between].
  destruct (Ascii.eqb c sep) eqn:Hc; simpl; [exact IH|].
  destruct (split sep s) as [|p ps] eqn:E; [by destruct (split_not_empty sep s)|].
  simpl in *. rewrite <- IH. by rewrite andb_assoc.
Qed.

Lemma trimmed_pieces_nothing pieces :
  filter (λ line, 0 < String.length line) (map trim pieces) = []
  ↔ forallb whitespace_only pieces = true.
Proof.
  induction pieces as [|p ps IH]; [done|]. cbn [map forallb]. rewrite filter_cons.
  destruct (whitespace_only p) eqn:Hp.
  - apply trim_empty in Hp. rewrite Hp. case_decide as Hlen; [simpl in Hlen; lia|].
    exact IH.
  - cbn [andb]. split; [|done]. case_decide as Hlen; [done|].
    destruct (trim p) eqn:Ht; [|simpl in Hlen; lia].
    apply trim_empty in Ht. congruence.
Qed.

End JsStringMore.

(** ** The executor, beyond the claims *)

Section ExecutorMore.
Context `{Collaborators}.

Lemma file_reads_app t1 t2 : file_reads (t1 ++ t2) = file_reads t1 ++ file_reads t2.
Proof. unfold file_reads. by rewrite omap_app. Qed.

Lemma file_reads_executes stmts : file_reads (EvExecute <$> stmts) = [].
Proof. by induction stmts. Qed.

Lemma executions_reads files : executions (EvReadFile <$> files) = [].
Proof. by induction files. Qed.

Lemma quiet_is_reads t : quiet t → t = EvReadFile <$> file_reads t.
Proof.
  induction 1 as [|ev t Hev _ IH]; [done|].
  destruct ev; try done. simpl. f_equal. exact IH.
Qed.

(** Every run of [executeSql] is of one of three kinds. *)
Lemma executeSql_cases contextMap commands pathname treatAsFiles (w w' : World) t r :
  executeSql contextMap commands pathname treatAsFiles w = (w', t, r) →
  ∃ t0, quiet t0 ∧
    ((∃ ex, sqlStatements contextMap commands pathname treatAsFiles w = (w, t0, Threw ex)
            ∧ w' = w ∧ t = t0 ∧ r = Threw ex)
     ∨ (∃ groups,
          sqlStatements contextMap commands pathname treatAsFiles w
            = (w, t0, Returned groups)
          ∧ statementCount groups = 0 ∧ w' = w ∧ t = t0 ∧ r = Returned tt)
     ∨ (∃ groups e tl failure e' rd,
          sqlStatements contextMap commands pathname treatAsFiles w
            = (w, t0, Returned groups)
          ∧ statementCount groups ≠ 0
          ∧ run_in_order (labelled groups) (ext w) = (e, tl, failure)
          ∧ db_disconnect e = (e', rd)
          ∧ w' = mkWorld _ (heap w) e'
          ∧ t = t0 ++ tl ++ [EvDisconnect]
          ∧ r = match rd with
                | Threw exd => Threw exd
                | Returned _ =>
                    match failure with
                    | None => Returned tt
                    | Some (label, statement, ex) => Threw (annotated statement label ex)
                    end
                end)).
Proof.
  intros Hrun.
  destruct (sqlStatements_run contextMap commands pathname treatAsFiles w)
    as (t0 & r0 & Hs & Hq).
  exists t0. split; [done|]. destruct r0 as [groups|ex].
  2:{ left. rewrite (executeSql_groups_throw _ _ _ _ _ _ _ Hs) in Hrun.
      injection Hrun as <- <- <-. by exists ex. }
  right. destruct (decide (statementCount groups = 0)) as [Hc|Hc].
  { left. rewrite (executeSql_nothing _ _ _ _ _ _ _ Hs Hc) in Hrun.
    injection Hrun as <- <- <-. by exists groups. }
  right. destruct (run_in_order (labelled groups) (ext w)) as [[e tl] failure] eqn:Hl.
  destruct (db_disconnect e) as [e' rd] eqn:Hd.
  rewrite (executeSql_run _ _ _ _ _ _ _ _ _ _ _ _ Hs Hc Hl Hd) in Hrun.
  injection Hrun as <- <- <-. by exists groups, e, tl, failure, e', rd.
Qed.

Lemma splitSql_clean text (w w1 : World) t stmts :
  splitSql text w = (w1, t, Returned stmts) → Forall clean_statement stmts.
Proof.
  unfold splitSql, mbind, Mst_bind, bind.
  destruct (parser_astify text) as [ast|ex]; simpl; [|done].
  destruct (parser_sqlify ast) as [sql|ex]; simpl; [|done].
  intros [= _ _ <-]. apply Forall_forall. intros s [Hlen Hin]%list_elem_of_filter.
  apply list_elem_of_fmap in Hin as (piece & -> & Hpiece).
  split; [|split].
  - intros Heq. rewrite Heq in Hlen. simpl in Hlen. lia.
  - apply JsStringMore.trim_idempotent.
  - destruct (JsString.includes ";" (JsString.trim piece)) eqn:E; [|done].
    apply JsStringMore.includes_trim in E.
    by rewrite (JsStringMore.split_pieces _ _ _ Hpiece) in E.
Qed.

Lemma fetchSql_clean contextMap file (w w1 : World) t g :
  fetchSql contextMap file w = (w1, t, Returned g) → Forall clean_statement (statements g).
Proof.
  unfold fetchSql, mbind, Mst_bind, bind, call_ext. rewrite world_eta.
  destruct (fs_readFileSync file (ext w)) as [contents|ex]; [|done].
  rewrite replaceWithContext_run.
  match goal with |- context [splitSql ?text w] =>
    destruct (splitSql text w) as [[w2 t2] [stmts|ex]] eqn:Hsplit end; simpl; [|done].
  intros [= _ _ <-]. simpl. by eapply splitSql_clean.
Qed.

Lemma sqlStatements_clean contextMap commands pathname treatAsFiles (w w1 : World) t groups :
  sqlStatements contextMap commands pathname treatAsFiles w = (w1, t, Returned groups) →
  Forall clean_statement (concat (statements <$> groups)).
Proof.
  unfold sqlStatements. destruct treatAsFiles.
  - revert w w1 t groups.
    induction (actualCommands commands) as [|file files IH]; intros w w1 t groups.
    + intros [= _ _ <-]. constructor.
    + cbn [array_map]. unfold bind at 1.
      destruct (fetchSql _ _ w) as [[w2 t2] [g|ex]] eqn:Hf; [|done].
      unfold bind at 1.
      destruct (array_map _ files w2) as [[w3 t3] [gs|ex]] eqn:Hrest; [|done].
      simpl. intros [= _ _ <-]. simpl. apply Forall_app. split.
      * by eapply fetchSql_clean.
      * by eapply IH.
  - unfold mbind, Mst_bind, bind. rewrite replaceWithContext_run.
    match goal with |- context [splitSql ?text w] =>
      destruct (splitSql text w) as [[w2 t2] [stmts|ex]] eqn:Hsplit end; simpl; [|done].
    intros [= _ _ <-]. simpl. rewrite app_nil_r. by eapply splitSql_clean.
Qed.

(** What a run executes is a prefix of the statements of the groups. *)
Lemma executeSql_executions contextMap commands pathname treatAsFiles
    (w w1 w' : World) t0 groups t r :
  sqlStatements contextMap commands pathname treatAsFiles w = (w1, t0, Returned groups) →
  executeSql contextMap commands pathname treatAsFiles w = (w', t, r) →
  executions t `prefix_of` concat (statements <$> groups)
  ∧ (r = Returned tt → executions t = concat (statements <$> groups)).
Proof.
  intros Hg Hrun. rewrite <- labelled_statements.
  destruct (executeSql_cases _ _ _ _ _ _ _ _ Hrun) as (t0' & Hq & Hcases).
  destruct Hcases as [(ex & Hs & _)|[(gs & Hs & Hc & -> & -> & ->)
    |(gs & e & tl & failure & e' & rd & Hs & Hc & Hl & Hd & -> & -> & ->)]];
    rewrite Hs in Hg; simplify_eq.
  - rewrite (quiet_executions _ Hq). rewrite statementCount_labelled in Hc.
    destruct (labelled groups); [done|done].
  - rewrite !executions_app, (quiet_executions _ Hq). simpl. rewrite app_nil_r.
    destruct (run_in_order_executions _ _ _ _ _ Hl) as (_ & _ & Hf).
    destruct failure as [[[label statement] ex]|].
    + destruct Hf as (pre & post & e1 & -> & -> & _). split.
      * rewrite fmap_app, fmap_cons. simpl. exists post.*2. by rewrite <- app_assoc.
      * by destruct rd.
    + by rewrite Hf.
Qed.

End ExecutorMore.

Section ExecutorExtras.
Context `{Collaborators}.

(** X1: the default mapping has exactly the two database keys, and both
    values are strings other than the empty one: the environment variable
    when it is set to a non-empty string, the built-in name otherwise. *)
Theorem startingContext_defaults :
  (∀ key, is_Some (startingContext !! key)
          ↔ key = "TEST_DATABASE_DBNAME" ∨ key = "DISTRICT_TEST_DATABASE_DBNAME")
  ∧ (∀ key (v : jsval), startingContext !! key = Some v → truthy v = true)
  ∧ (∀ var fallback v, process_env var = Some v → v ≠ "" → env_or var fallback = v)
  ∧ (∀ var fallback, process_env var = None ∨ process_env var = Some "" →
       env_or var fallback = fallback)
  ∧ startingContext !! "TEST_DATABASE_DBNAME"
    = Some (JStr (env_or "TEST_DATABASE_DBNAME" "am_admin_test"))
  ∧ startingContext !! "DISTRICT_TEST_DATABASE_DBNAME"
    = Some (JStr (env_or "DISTRICT_TEST_DATABASE_DBNAME" "amd_district_test")).
Proof.
  assert (Hne : ∀ var fallback, fallback ≠ "" → env_or var fallback ≠ "").
  { intros var fallback Hf. unfold env_or.
    by destruct (process_env var) as [[|c v]|]. }
  assert (H1 : startingContext !! "TEST_DATABASE_DBNAME"
               = Some (JStr (env_or "TEST_DATABASE_DBNAME" "am_admin_test")))
    by (unfold startingContext; apply lookup_insert_eq).
  assert (H2 : startingContext !! "DISTRICT_TEST_DATABASE_DBNAME"
               = Some (JStr (env_or "DISTRICT_TEST_DATABASE_DBNAME" "amd_district_test"))).
  { unfold startingContext. rewrite lookup_insert_ne by done.
    apply lookup_singleton_eq. }
  assert (H3 : ∀ key, key ≠ "TEST_DATABASE_DBNAME" → key ≠ "DISTRICT_TEST_DATABASE_DBNAME" →
               startingContext !! key = None).
  { intros key Ha Hb. unfold startingContext. rewrite lookup_insert_ne by done.
    by rewrite lookup_singleton_ne. }
  split; [|split; [|split; [|split; [|split]]]]; try done.
  - intros key. split.
    + intros Hsome.
      destruct (decide (key = "TEST_DATABASE_DBNAME")) as [|Ha]; [by left|].
      destruct (decide (key = "DISTRICT_TEST_DATABASE_DBNAME")) as [|Hb]; [by right|].
      rewrite (H3 key Ha Hb) in Hsome. by destruct Hsome.
    + intros [-> | ->]; [by rewrite H1|by rewrite H2].
  - intros key v Hv.
    destruct (decide (key = "TEST_DATABASE_DBNAME")) as [->|Ha].
    { rewrite H1 in Hv. injection Hv as <-.
      specialize (Hne "TEST_DATABASE_DBNAME" "am_admin_test").
      destruct (env_or _ _); [by destruct Hne|done]. }
    destruct (decide (key = "DISTRICT_TEST_DATABASE_DBNAME")) as [->|Hb].
    { rewrite H2 in Hv. injection Hv as <-.
      specialize (Hne "DISTRICT_TEST_DATABASE_DBNAME" "amd_district_test").
      destruct (env_or _ _); [by destruct Hne|done]. }
    by rewrite (H3 key Ha Hb) in Hv.
  - intros var fallback v Hv Hnv. unfold env_or. rewrite Hv. by destruct v.
  - intros var fallback [Hv|Hv]; unfold env_or; by rewrite Hv.
Qed.

(** X2: whatever [executeSql] hands to the database is a statement that is
    not empty, has no white space around it and holds no semicolon. *)
Theorem executed_statements_are_clean
    contextMap commands pathname treatAsFiles (w w' : World) t r :
  executeSql contextMap commands pathname treatAsFiles w = (w', t, r) →
  Forall clean_statement (executions t).
Proof.
  intros Hrun.
  destruct (sqlStatements contextMap commands pathname treatAsFiles w)
    as [[w1 t0] [groups|ex]] eqn:Hs.
  - destruct (executeSql_executions _ _ _ _ _ _ _ _ _ _ _ Hs Hrun) as [[rest Hp] _].
    pose proof (sqlStatements_clean _ _ _ _ _ _ _ _ Hs) as Hclean.
    rewrite Hp in Hclean. by apply Forall_app in Hclean as [? _].
  - destruct (executeSql_cases _ _ _ _ _ _ _ _ Hrun) as (t0' & Hq & Hcases).
    destruct Hcases as [(ex' & _ & _ & -> & _)|[(gs & Hs' & _)
      |(gs & e & tl & failure & e' & rd & Hs' & _)]].
    + rewrite (quiet_executions _ Hq). constructor.
    + rewrite Hs' in Hs. done.
    + rewrite Hs' in Hs. done.
Qed.

(** X3: substitution changes nothing in a text without an opening brace,
    whatever the mapping, and nothing in a text each of whose placeholders
    has a key that reads falsy from the mapping: a key that the mapping has
    with [undefined] or the empty string, or that it does not have and that
    names no member of [Object.prototype]. *)
Theorem substitution_without_effect (contextMap : ContextMap) (s : string) :
  (JsString.includes "{" s = false → replaceLine contextMap (Some s) = s)
  ∧ ((∀ key, key ∈ JsString.placeholders s → truthy (get_prop contextMap key) = false) →
     replaceLine contextMap (Some s) = s).
Proof.
  split.
  - intros Hs. by apply JsStringMore.replaceAll_no_brace.
  - intros Hfalsy. apply JsStringMore.replaceAll_identity. intros key Hkey.
    unfold replacement. by rewrite (Hfalsy key Hkey).
Qed.

Lemma raw_run_reads_nothing contextMap commands pathname (w w' : World) t r :
  executeSql contextMap commands pathname false w = (w', t, r) → file_reads t = [].
Proof.
  intros Hrun.
  assert (Hraw : ∀ t0 r0, sqlStatements contextMap commands pathname false w
                          = (w, t0, r0) → t0 = []).
  { intros t0 r0. unfold sqlStatements, mbind, Mst_bind, bind.
    rewrite replaceWithContext_run.
    match goal with |- context [splitSql ?text w] =>
      destruct (splitSql_run text w) as [rs ->] end.
    destruct rs; simpl; by intros [= <- _]. }
  destruct (executeSql_cases _ _ _ _ _ _ _ _ Hrun) as (t0 & Hq & Hcases).
  destruct Hcases as [(ex & Hs & -> & -> & ->)|[(gs & Hs & Hc & -> & -> & ->)
    |(gs & e & tl & failure & e' & rd & Hs & Hc & Hl & Hd & -> & -> & ->)]];
    rewrite (Hraw _ _ Hs); [done|done|].
  destruct (run_in_order_executions _ _ _ _ _ Hl) as (Htl & _ & _).
  rewrite !file_reads_app, Htl, file_reads_executes. done.
Qed.

(** X4: a run of [executeSql] leaves every object of the heap as it is, and
    its calls come in this order: the file reads, then the statements, then
    the release of the connection, which happens at most once and is the
    last call.  The connection is released exactly when a statement has been
    handed to the database.  For raw input no file is read. *)
Theorem executeSql_trace_shape
    contextMap commands pathname treatAsFiles (w w' : World) t r :
  executeSql contextMap commands pathname treatAsFiles w = (w', t, r) →
  heap w' = heap w
  ∧ t = (EvReadFile <$> file_reads t) ++ (EvExecute <$> executions t)
        ++ replicate (releases t) EvDisconnect
  ∧ releases t ≤ 1
  ∧ (executions t ≠ [] ↔ releases t = 1)
  ∧ (treatAsFiles = false → file_reads t = []).
Proof.
  intros Hrun.
  assert (Hraw : treatAsFiles = false → file_reads t = []).
  { intros Hf. subst treatAsFiles. by eapply raw_run_reads_nothing. }
  destruct (executeSql_cases _ _ _ _ _ _ _ _ Hrun) as (t0 & Hq & Hcases).
  destruct Hcases as [(ex & Hs & -> & -> & ->)|[(gs & Hs & Hc & -> & -> & ->)
    |(gs & e & tl & failure & e' & rd & Hs & Hc & Hl & Hd & -> & -> & ->)]].
  - rewrite (quiet_executions _ Hq), (quiet_releases _ Hq). simpl.
    rewrite app_nil_r. split; [done|]. split; [by apply quiet_is_reads|].
    split; [lia|]. split; [by split|]. exact Hraw.
  - rewrite (quiet_executions _ Hq), (quiet_releases _ Hq). simpl.
    rewrite app_nil_r. split; [done|]. split; [by apply quiet_is_reads|].
    split; [lia|]. split; [by split|]. exact Hraw.
  - destruct (run_in_order_executions _ _ _ _ _ Hl) as (Htl & Hrl & Hfail).
    assert (Hr : releases (t0 ++ tl ++ [EvDisconnect]) = 1).
    { by rewrite !releases_app, (quiet_releases _ Hq), Hrl. }
    assert (Hx : executions (t0 ++ tl ++ [EvDisconnect]) = executions tl).
    { rewrite !executions_app, (quiet_executions _ Hq). simpl. by rewrite app_nil_r. }
    assert (Hf : file_reads (t0 ++ tl ++ [EvDisconnect]) = file_reads t0).
    { rewrite !file_reads_app, Htl, file_reads_executes. simpl. by rewrite app_nil_r. }
    assert (Hsome : executions tl ≠ []).
    { rewrite statementCount_labelled in Hc.
      destruct failure as [[[label statement] ex]|].
      - destruct Hfail as (pre & post & e1 & _ & -> & _). by destruct pre.*2.
      - rewrite Hfail. destruct (labelled gs); [done|done]. }
    split; [done|]. split.
    { rewrite Hr, Hx, Hf. simpl. by rewrite <- (quiet_is_reads _ Hq), <- Htl. }
    split; [lia|]. split; [by rewrite Hx|]. exact Hraw.
Qed.

(** X5: when the sources cannot be turned into statements (a file cannot be
    read, the parser rejects a text), [executeSql] ends with that error as it
    is, without the annotation of a statement; no statement has been executed
    and the connection has not been released. *)
Theorem executeSql_source_failure
    contextMap commands pathname treatAsFiles (w w1 : World) t0 ex :
  sqlStatements contextMap commands pathname treatAsFiles w = (w1, t0, Threw ex) →
  executeSql contextMap commands pathname treatAsFiles w = (w, t0, Threw ex)
  ∧ executions t0 = [] ∧ releases t0 = 0
  ∧ (treatAsFiles = true →
     ∃ n, 0 < n ∧ file_reads t0
                  = take n ((λ file, getFullFilename file pathname)
                              <$> actualCommands commands)).
Proof.
  intros Hs.
  destruct (sqlStatements_run contextMap commands pathname treatAsFiles w)
    as (t0' & r0 & Hs' & Hq).
  rewrite Hs' in Hs. injection Hs as <- -> ->.
  split; [by apply executeSql_groups_throw|].
  split; [by apply quiet_executions|]. split; [by apply quiet_releases|].
  intros ->. unfold sqlStatements in Hs'. clear Hq. revert t0 Hs'.
  induction (actualCommands commands) as [|file files IH]; intros t0; [done|].
  cbn [array_map]. unfold bind at 1.
  destruct (fetchSql_run contextMap (getFullFilename file pathname) w) as (r & -> & _).
  destruct r as [g|ex1].
  - unfold bind at 1.
    destruct (array_map _ files w) as [[w2 t2] [gs|ex2]] eqn:Hrest; [done|].
    destruct (fetch_all_run contextMap pathname files w) as (t2' & r2 & Hrest' & _).
    rewrite Hrest' in Hrest. injection Hrest as <- -> ->.
    intros [= <- <-]. destruct (IH t2 eq_refl) as (n & Hn & Hreads).
    exists (S n). split; [lia|]. simpl. by rewrite Hreads.
  - intros [= <- <-]. exists 1. split; [lia|]. simpl. by rewrite take_0.
Qed.

End ExecutorExtras.

Section SourcesExtras.
Context `{Collaborators}.

Lemma fetch_all_reads contextMap (pathname : ParsedPath) files (w : World) : ∀ w1 t r,
  array_map (λ file, fetchSql contextMap (getFullFilename file pathname)) files w
    = (w1, t, r) →
  file_reads t `prefix_of` ((λ file, getFullFilename file pathname) <$> files)
  ∧ ∀ groups, r = Returned groups →
      file_reads t = (λ file, getFullFilename file pathname) <$> files.
Proof.
  induction files as [|file files IH]; intros w1 t r.
  - intros [= _ <- <-]. split; [done|]. done.
  - cbn [array_map]. unfold bind at 1.
    destruct (fetchSql_run contextMap (getFullFilename file pathname) w) as (r1 & -> & _).
    destruct r1 as [g|ex1].
    + unfold bind at 1.
      destruct (array_map _ files w) as [[w2 t2] r2] eqn:Hrest.
      destruct (IH _ _ _ eq_refl) as [Hp Hall].
      destruct r2 as [gs|ex2]; simpl; intros [= _ <- <-]; simpl.
      * rewrite app_nil_r. split; [by apply prefix_cons|].
        intros ? _. by rewrite (Hall gs eq_refl).
      * split; [by apply prefix_cons|done].
    + intros [= _ <- <-]. simpl. split; [|done]. apply prefix_cons, prefix_nil.
Qed.

(** X6: for files, the reads follow the order of the entries that are left,
    each file under the directory of the test and with its name trimmed; no
    statement is executed before all of them have been read and split. *)
Theorem files_are_read_before_any_statement
    contextMap commands pathname (w w' : World) t r :
  executeSql contextMap commands pathname true w = (w', t, r) →
  file_reads t `prefix_of` ((λ file, dir pathname +:+ "/" +:+ JsString.trim file)
                              <$> actualCommands commands)
  ∧ (executions t ≠ [] ∨ releases t ≠ 0 ∨ r = Returned tt →
     file_reads t = (λ file, dir pathname +:+ "/" +:+ JsString.trim file)
                      <$> actualCommands commands).
Proof.
  intros Hrun.
  destruct (executeSql_cases _ _ _ _ _ _ _ _ Hrun) as (t0 & Hq & Hcases).
  assert (Hreads : ∀ r0, sqlStatements contextMap commands pathname true w = (w, t0, r0) →
            file_reads t0 `prefix_of` ((λ file, getFullFilename file pathname)
                                         <$> actualCommands commands)
            ∧ ∀ groups, r0 = Returned groups →
                file_reads t0 = (λ file, getFullFilename file pathname)
                                  <$> actualCommands commands).
  { intros r0 Hs. by eapply fetch_all_reads. }
  change (λ file, dir pathname +:+ "/" +:+ JsString.trim file)
    with (λ file, getFullFilename file pathname).
  destruct Hcases as [(ex & Hs & -> & -> & ->)|[(gs & Hs & Hc & -> & -> & ->)
    |(gs & e & tl & failure & e' & rd & Hs & Hc & Hl & Hd & -> & -> & ->)]];
    destruct (Hreads _ Hs) as [Hp Hall].
  - split; [done|]. rewrite (quiet_executions _ Hq), (quiet_releases _ Hq).
    by intros [?|[?|?]].
  - split; [done|]. intros _. by apply (Hall gs).
  - destruct (run_in_order_executions _ _ _ _ _ Hl) as (Htl & _ & _).
    assert (Hf : file_reads (t0 ++ tl ++ [EvDisconnect]) = file_reads t0).
    { rewrite !file_reads_app, Htl, file_reads_executes. simpl. by rewrite app_nil_r. }
    rewrite Hf, (Hall gs eq_refl). done.
Qed.

(** X7: raw input makes one group, labelled [raw input], and reads no file;
    its statements are executed in order up to the first failure, all of
    them when the call returns.  When a statement fails, the caller gets the
    error of the database with the message [Error executing sql "..." from
    raw input: ...], unless the release of the connection throws. *)
Theorem raw_input_is_one_group
    contextMap commands pathname (w w1 w' : World) t0 groups t r :
  sqlStatements contextMap commands pathname false w = (w1, t0, Returned groups) →
  executeSql contextMap commands pathname false w = (w', t, r) →
  t0 = []
  ∧ file_reads t = []
  ∧ ∃ stmts,
      groups = [mkGroup stmts "raw input"]
      ∧ executions t `prefix_of` stmts
      ∧ (r = Returned tt → executions t = stmts)
      ∧ ∀ e tl label statement ex e' rd,
          run_in_order (labelled groups) (ext w) = (e, tl, Some (label, statement, ex)) →
          db_disconnect e = (e', rd) →
          label = "raw input"
          ∧ r = match rd with
                | Threw exd => Threw exd
                | Returned _ =>
                    Threw (set_message ex
                             ("Error executing sql " +:+ JsString.quote +:+ statement
                              +:+ JsString.quote +:+ " from raw input: " +:+ message ex))
                end.
Proof.
  intros Hs Hrun.
  destruct (executeSql_executions _ _ _ _ _ _ _ _ _ _ _ Hs Hrun) as [Hp Hall].
  pose proof (raw_run_reads_nothing _ _ _ _ _ _ _ Hrun) as Hnoread.
  destruct (sqlStatements_run contextMap commands pathname false w)
    as (t0' & r0 & Hs' & _).
  rewrite Hs' in Hs. injection Hs as <- -> ->.
  pose proof Hs' as Hgroups.
  unfold sqlStatements, mbind, Mst_bind, bind in Hgroups.
  rewrite replaceWithContext_run in Hgroups.
  match type of Hgroups with context [splitSql ?text w] =>
    destruct (splitSql_run text w) as [rs Hsplit]; rewrite Hsplit in Hgroups end.
  destruct rs as [stmts|ex]; simpl in Hgroups; [|done].
  injection Hgroups as <- <-.
  split; [done|]. split; [exact Hnoread|]. exists stmts.
  simpl in Hp, Hall. rewrite app_nil_r in Hp, Hall.
  split; [done|]. split; [done|]. split; [done|].
  intros e tl label statement ex e' rd Hl Hd.
  assert (Hlabel : label = "raw input").
  { unfold labelled in Hl. simpl in Hl. rewrite app_nil_r in Hl.
    by eapply run_in_order_label. }
  split; [done|]. subst label.
  assert (Hc : statementCount [mkGroup stmts "raw input"] ≠ 0).
  { rewrite statementCount_labelled. intros Hz.
    destruct (labelled [mkGroup stmts "raw input"]); [done|done]. }
  rewrite (executeSql_run _ _ _ _ _ _ _ _ _ _ _ _ Hs' Hc Hl Hd) in Hrun.
  by injection Hrun as _ _ <-.
Qed.

Lemma whitespace_only_trim s :
  JsString.whitespace_only (JsString.trim s) = JsString.whitespace_only s.
Proof.
  destruct (JsString.whitespace_only s) eqn:Hs.
  - apply JsStringFacts.trim_empty in Hs. by rewrite Hs.
  - destruct (JsString.whitespace_only (JsString.trim s)) eqn:Ht; [|done].
    apply JsStringFacts.trim_empty in Ht. rewrite JsStringMore.trim_idempotent in Ht.
    apply JsStringFacts.trim_empty in Ht. congruence.
Qed.

Lemma actualCommands_trim (entries : list (option string)) :
  actualCommands (ManyCommands (fmap (M:=list) (fmap (M:=option) JsString.trim) entries))
  = fmap (M:=list) JsString.trim (actualCommands (ManyCommands entries)).
Proof.
  unfold actualCommands. cbn [toArray].
  induction entries as [|entry entries IH]; [done|].
  cbn [fmap list_fmap omap list_omap]. rewrite !is_command_not_blank.
  destruct entry as [s|]; simpl; [|exact IH].
  rewrite whitespace_only_trim.
  destruct (JsString.whitespace_only s); simpl; [exact IH|]. f_equal. exact IH.
Qed.

Lemma array_map_fmap {S A B C} (f : B → Mst S C) (g : A → B) (xs : list A) :
  array_map f (g <$> xs) = array_map (λ x, f (g x)) xs.
Proof.
  induction xs as [|x xs IH]; [done|]. rewrite fmap_cons. cbn [array_map]. by rewrite IH.
Qed.

Lemma array_map_ext {S A B} (f g : A → Mst S B) (xs : list A) :
  (∀ x, f x = g x) → array_map f xs = array_map g xs.
Proof.
  intros Hfg. induction xs as [|x xs IH]; [done|]. cbn [array_map]. by rewrite Hfg, IH.
Qed.

(** X8: white space around the entries of a file list does not matter: the
    list and the list of the trimmed entries are executed alike. *)
Theorem file_entries_are_trimmed
    contextMap (entries : list (option string)) pathname (w : World) :
  executeSql contextMap
    (ManyCommands (fmap (M:=list) (fmap (M:=option) JsString.trim) entries)) pathname true w
  = executeSql contextMap (ManyCommands entries) pathname true w.
Proof.
  unfold executeSql, sqlStatements. rewrite actualCommands_trim, array_map_fmap.
  rewrite (array_map_ext _ (λ file, fetchSql contextMap (getFullFilename file pathname)));
    [done|].
  intros file. unfold getFullFilename. by rewrite JsStringMore.trim_idempotent.
Qed.

End SourcesExtras.

(** ** The builders, beyond the claims *)

Section BuilderExtras.
Context `{Collaborators}.

Lemma deref_insert_eq (h : Heap) l o : deref (<[l := o]> h) l = o.
Proof. unfold deref. by rewrite lookup_insert_eq. Qed.

Lemma deref_insert_ne (h : Heap) l l' o : l ≠ l' → deref (<[l := o]> h) l' = deref h l'.
Proof. intros Hne. unfold deref. by rewrite lookup_insert_ne. Qed.

(** X9: a test helper called with four arguments registers, under the given
    name, a test whose context mapping is a new object that holds the
    default mapping; the objects that exist are left as they are. *)
Theorem four_argument_test_gets_fresh_defaults
    (it : string → M Value → M Value) testPath treatAsFiles
    testName a2 a3 sqlSetup sqlTeardown testFunc (w : World) :
  as_commands a2 = Some sqlSetup →
  as_commands a3 = Some sqlTeardown →
  ∃ l,
    heap w !! l = None
    ∧ buildTestSqlScenario it testPath treatAsFiles
        [ArgString testName; a2; a3; ArgFunction testFunc] w
      = it testName
          (testBody l sqlSetup sqlTeardown (path_parse testPath) treatAsFiles testFunc)
          (mkWorld _ (<[l := startingContext]> (heap w)) (ext w))
    ∧ ∀ l', is_Some (heap w !! l') →
        deref (<[l := startingContext]> (heap w)) l' = deref (heap w) l'.
Proof.
  intros H2 H3. exists (alloc (heap w) startingContext).1.
  pose proof (alloc_fresh (heap w) startingContext) as Hfresh.
  split; [done|]. split.
  - unfold buildTestSqlScenario, destructure4. simpl. rewrite H2, H3. simpl.
    unfold mbind, Mst_bind, bind, new_object. simpl.
    by destruct (it _ _ _) as [[? ?] ?].
  - intros l' [o Ho]. apply deref_insert_ne. intros <-. congruence.
Qed.

(** X10: the context mapping of a group is a new object that has every key
    of the default mapping, with the values of the caller where the caller
    has the key.  A test helper that is given this mapping uses the object
    itself when its [describeBlockName] is truthy and else a new object with
    exactly the same entries; the object of the group is not changed. *)
Theorem nested_test_context (providedMap : option loc) (w w1 : World) t l :
  describeContext providedMap w = (w1, t, Returned l) →
  let supplied := from_option (deref (heap w)) ∅ providedMap in
  heap w !! l = None
  ∧ (∀ key, is_Some (startingContext !! key) → is_Some (deref (heap w1) l !! key))
  ∧ (∀ key v, supplied !! key = Some v → deref (heap w1) l !! key = Some v)
  ∧ (∀ key v, supplied !! key = None → startingContext !! key = Some v →
       deref (heap w1) l !! key = Some v)
  ∧ ∃ w2 l2,
      testContext l w1 = (w2, [], Returned l2)
      ∧ deref (heap w2) l2 = deref (heap w1) l
      ∧ deref (heap w2) l = deref (heap w1) l
      ∧ (l2 = l ↔ truthy (get_prop (deref (heap w1) l) "describeBlockName") = true).
Proof.
  intros Hd supplied.
  set (G := spread3 blockContext startingContext supplied).
  assert (Hw1 : w1 = mkWorld _ (<[l := G]> (heap w)) (ext w)
                ∧ l = (alloc (heap w) G).1).
  { unfold describeContext in Hd. destruct providedMap as [pm|].
    - unfold mbind, Mst_bind, bind, gets, new_object in Hd. simpl in Hd.
      by injection Hd as <- _ <-.
    - unfold new_object in Hd. simpl in Hd. injection Hd as <- _ <-.
      subst G supplied. unfold spread3, spread2. simpl.
      by rewrite (left_id_L ∅ (∪)). }
  destruct Hw1 as [-> Hl].
  assert (Hfresh : heap w !! l = None) by (rewrite Hl; apply alloc_fresh).
  cbn [heap]. rewrite deref_insert_eq.
  assert (HG : ∀ key, G !! key
                = match supplied !! key with
                  | Some v => Some v
                  | None => spread2 blockContext startingContext !! key
                  end).
  { intros key. apply (spread2_lookup (spread2 blockContext startingContext)). }
  split; [done|]. split.
  { intros key [v Hv]. rewrite HG. destruct (supplied !! key); [by eexists|].
    rewrite spread2_lookup, Hv. by eexists. }
  split; [by intros key v Hk; rewrite HG, Hk|]. split.
  { intros key v Hk Hv. by rewrite HG, Hk, spread2_lookup, Hv. }
  unfold testContext, mbind, Mst_bind, bind, gets. cbn [heap ext].
  rewrite deref_insert_eq.
  destruct (truthy (get_prop G "describeBlockName")) eqn:Ht.
  - eexists _, l. split; [done|]. cbn [heap]. rewrite deref_insert_eq. done.
  - assert (Hcopy : spread2 startingContext G = G).
    { apply map_eq. intros key. rewrite spread2_lookup.
      destruct (G !! key) eqn:E; [done|].
      rewrite HG in E. destruct (supplied !! key); [done|].
      rewrite spread2_lookup in E. by destruct (startingContext !! key). }
    rewrite Hcopy. unfold new_object. cbn [heap ext].
    set (l2 := (alloc (<[l := G]> (heap w)) G).1).
    assert (Hl2 : (<[l := G]> (heap w)) !! l2 = None) by apply alloc_fresh.
    assert (Hne : l2 ≠ l).
    { intros Heq. rewrite Heq, lookup_insert_eq in Hl2. done. }
    eexists _, l2. split; [done|]. cbn [heap].
    split; [apply deref_insert_eq|]. split.
    + rewrite deref_insert_ne by done. apply deref_insert_eq.
    + split; [by intros ?|discriminate].
Qed.

(** X11: a test whose setup and teardown file lists hold no entry other
    than blanks is the wrapped body and nothing else: the same final world,
    the same outcome, and no call on the execution channel by the helper. *)
Theorem test_without_files_is_the_body
    contextMap sqlSetup sqlTeardown pathname testFunc (w w2 : World) t2 rb :
  actualCommands sqlSetup = [] →
  actualCommands sqlTeardown = [] →
  testFunc None w = (w2, t2, rb) →
  testBody contextMap sqlSetup sqlTeardown pathname true testFunc w
  = (w2, EvTestFunc :: t2, rb).
Proof.
  intros Hsetup Hdown Hbody.
  assert (Hnone : ∀ commands (w0 : World), actualCommands commands = [] →
            executeSql contextMap commands pathname true w0 = (w0, [], Returned tt)).
  { intros commands w0 Hc. apply (executeSql_nothing _ _ _ _ _ _ []); [|done].
    unfold sqlStatements. by rewrite Hc. }
  unfold testBody, mbind, Mst_bind, bind, try_finally, emit.
  rewrite (Hnone _ _ Hsetup), Hbody, (Hnone _ _ Hdown). simpl.
  rewrite !app_nil_r. by destruct rb.
Qed.

End BuilderExtras.

(** ** What the executor depends on *)

Section Frame.
Context `{Collaborators}.

Lemma splitSql_pure text : ∃ r, ∀ w : World, splitSql text w = (w, [], r).
Proof.
  unfold splitSql, mbind, Mst_bind, bind.
  destruct (parser_astify text) as [ast|ex]; simpl; [|by eexists].
  destruct (parser_sqlify ast) as [sql|ex]; simpl; by eexists.
Qed.

Lemma fetchSql_frame contextMap file (w1 w2 : World) :
  deref (heap w1) contextMap = deref (heap w2) contextMap →
  ext w1 = ext w2 →
  ∃ t r, fetchSql contextMap file w1 = (w1, t, r)
         ∧ fetchSql contextMap file w2 = (w2, t, r).
Proof.
  intros Hctx Hext. unfold fetchSql, mbind, Mst_bind, bind, call_ext.
  rewrite !world_eta, Hext.
  destruct (fs_readFileSync file (ext w2)) as [contents|ex]; [|by eexists _, _].
  rewrite !replaceWithContext_run, Hctx.
  match goal with |- context [splitSql ?text w1] =>
    destruct (splitSql_pure text) as [r Hr] end.
  rewrite !Hr. destruct r; simpl; by eexists _, _.
Qed.

Lemma sqlStatements_frame contextMap commands pathname treatAsFiles (w1 w2 : World) :
  deref (heap w1) contextMap = deref (heap w2) contextMap →
  ext w1 = ext w2 →
  ∃ t r, sqlStatements contextMap commands pathname treatAsFiles w1 = (w1, t, r)
         ∧ sqlStatements contextMap commands pathname treatAsFiles w2 = (w2, t, r).
Proof.
  intros Hctx Hext. unfold sqlStatements. destruct treatAsFiles.
  - induction (actualCommands commands) as [|file files IH].
    + by eexists _, _.
    + cbn [array_map]. unfold bind at 1 3.
      destruct (fetchSql_frame contextMap (getFullFilename file pathname) w1 w2 Hctx Hext)
        as (t & r & -> & ->).
      destruct r as [g|ex]; [|by eexists _, _].
      unfold bind. destruct IH as (t' & r' & -> & ->).
      destruct r'; simpl; by eexists _, _.
  - unfold mbind, Mst_bind, bind. rewrite !replaceWithContext_run, Hctx.
    match goal with |- context [splitSql ?text w1] =>
      destruct (splitSql_pure text) as [r Hr] end.
    rewrite !Hr. destruct r; simpl; by eexists _, _.
Qed.

(** X12: what [executeSql] does depends on the heap only through the object
    that its context mapping refers to when it is called: two runs from
    worlds that agree on that object and on the outside state make the same
    calls, end alike and leave the same outside state. *)
Theorem executeSql_depends_on_its_mapping_only
    contextMap commands pathname treatAsFiles (w1 w2 w1' w2' : World) t1 t2 r1 r2 :
  deref (heap w1) contextMap = deref (heap w2) contextMap →
  ext w1 = ext w2 →
  executeSql contextMap commands pathname treatAsFiles w1 = (w1', t1, r1) →
  executeSql contextMap commands pathname treatAsFiles w2 = (w2', t2, r2) →
  t1 = t2 ∧ r1 = r2 ∧ ext w1' = ext w2'.
Proof.
  intros Hctx Hext Hrun1 Hrun2.
  destruct (sqlStatements_frame contextMap commands pathname treatAsFiles w1 w2 Hctx Hext)
    as (t & r & Hs1 & Hs2).
  destruct r as [groups|ex].
  2:{ rewrite (executeSql_groups_throw _ _ _ _ _ _ _ Hs1) in Hrun1.
      rewrite (executeSql_groups_throw _ _ _ _ _ _ _ Hs2) in Hrun2.
      by simplify_eq. }
  destruct (decide (statementCount groups = 0)) as [Hc|Hc].
  { rewrite (executeSql_nothing _ _ _ _ _ _ _ Hs1 Hc) in Hrun1.
    rewrite (executeSql_nothing _ _ _ _ _ _ _ Hs2 Hc) in Hrun2.
    by simplify_eq. }
  destruct (run_in_order (labelled groups) (ext w1)) as [[e tl] failure] eqn:Hl1.
  assert (Hl2 : run_in_order (labelled groups) (ext w2) = (e, tl, failure))
    by (by rewrite <- Hext).
  destruct (db_disconnect e) as [e' rd] eqn:Hd.
  rewrite (executeSql_run _ _ _ _ _ _ _ _ _ _ _ _ Hs1 Hc Hl1 Hd) in Hrun1.
  rewrite (executeSql_run _ _ _ _ _ _ _ _ _ _ _ _ Hs2 Hc Hl2 Hd) in Hrun2.
  by simplify_eq.
Qed.

End Frame.

Section NoStatements.
Context `{Collaborators}.

(** X13: raw input is a silent no-op exactly when the text that the parser
    gives back holds nothing but white space and semicolons. *)
Theorem raw_input_without_statements
    contextMap commands pathname (w : World) ast sql :
  parser_astify
    (JsString.join ";"
       (map (replaceLine (deref (heap w) contextMap)) (Some <$> actualCommands commands)))
    = Returned ast →
  parser_sqlify ast = Returned sql →
  executeSql contextMap commands pathname false w = (w, [], Returned tt)
  ↔ JsString.blank_between ";" sql = true.
Proof.
  intros Hast Hsql.
  set (stmts := filter (λ line, 0 < String.length line)
                  (map JsString.trim (JsString.split ";" sql))).
  assert (Hs : sqlStatements contextMap commands pathname false w
               = (w, [], Returned [mkGroup stmts "raw input"])).
  { unfold sqlStatements, mbind, Mst_bind, bind. rewrite replaceWithContext_run.
    unfold splitSql, mbind, Mst_bind, bind. rewrite Hast. simpl. by rewrite Hsql. }
  rewrite <- JsStringMore.split_blank, <- JsStringMore.trimmed_pieces_nothing.
  fold stmts. split.
  - intros Hrun. destruct stmts as [|s rest] eqn:E; [done|].
    assert (Hc : statementCount [mkGroup (s :: rest) "raw input"] ≠ 0) by done.
    destruct (run_in_order (labelled [mkGroup (s :: rest) "raw input"]) (ext w))
      as [[e tl] failure] eqn:Hl.
    destruct (db_disconnect e) as [e' rd] eqn:Hd.
    rewrite (executeSql_run _ _ _ _ _ _ _ _ _ _ _ _ Hs Hc Hl Hd) in Hrun.
    injection Hrun as _ Ht _. by destruct tl.
  - intros Hnone. rewrite Hnone in Hs. by apply (executeSql_nothing _ _ _ _ _ _ _ Hs).
Qed.

End NoStatements.

(** ** The further properties on the small platform *)

Section MoreOnToy.
Import Toy.
Existing Instances platform collaborators.

Lemma startingContext_defaults_witness :
  @env_or platform collaborators "TEST_DATABASE_DBNAME" "am_admin_test" = "am_admin_test"
  ∧ @env_or platform with_env "TEST_DATABASE_DBNAME" "am_admin_test" = "ci_db"
  ∧ truthy (JStr "ci_db") = true.
Proof.
  destruct (@startingContext_defaults platform collaborators) as (_ & _ & _ & Hunset & _).
  destruct (@startingContext_defaults platform with_env) as (_ & Htruthy & Hset & _).
  split; [apply Hunset; left; reflexivity|].
  split; [apply Hset; [reflexivity|discriminate]|].
  apply (Htruthy "TEST_DATABASE_DBNAME"). reflexivity.
Defined.

Lemma executed_statements_are_clean_witness :
  Forall clean_statement (executions [EvExecute "x"; EvExecute "FAIL"; EvDisconnect]).
Proof.
  apply (executed_statements_are_clean 1%positive (OneCommand (Some " x ;; FAIL ; y"))
           pathname false start (mkWorld platform ∅ (mkToyExt ["x"] 1))
           [EvExecute "x"; EvExecute "FAIL"; EvDisconnect]
           (Threw (annotated "FAIL" "raw input" boom))).
  vm_compute. reflexivity.
Defined.

Lemma substitution_without_effect_witness :
  replaceLine {[ "A" := JStr "1" ]} (Some "select 1; -- A}") = "select 1; -- A}"
  ∧ replaceLine {[ "A" := JStr "" ]} (Some "select {A}, {B}") = "select {A}, {B}".
Proof.
  split.
  - destruct (substitution_without_effect {[ "A" := JStr "1" ]} "select 1; -- A}")
      as [Hbrace _].
    apply Hbrace. reflexivity.
  - destruct (substitution_without_effect {[ "A" := JStr "" ]} "select {A}, {B}")
      as [_ Hfalsy].
    apply Hfalsy. intros key Hkey.
    assert (Hkeys : JsString.placeholders "select {A}, {B}" = ["A"; "B"]) by reflexivity.
    rewrite Hkeys in Hkey.
    apply elem_of_cons in Hkey as [->|Hkey]; [reflexivity|].
    apply list_elem_of_singleton in Hkey as ->. reflexivity.
Defined.

Lemma executeSql_trace_shape_witness :
  [EvReadFile "/t/b.sql"; EvExecute "DELETE FROM t"; EvDisconnect]
  = (EvReadFile <$> file_reads [EvReadFile "/t/b.sql"; EvExecute "DELETE FROM t"; EvDisconnect])
    ++ (EvExecute <$> executions [EvReadFile "/t/b.sql"; EvExecute "DELETE FROM t";
                                  EvDisconnect])
    ++ replicate (releases [EvReadFile "/t/b.sql"; EvExecute "DELETE FROM t"; EvDisconnect])
         EvDisconnect.
Proof.
  apply (executeSql_trace_shape 1%positive (OneCommand (Some "b.sql")) pathname true
           (world_with {[ "T" := JStr "t" ]})
           (mkWorld platform {[ 1%positive := {[ "T" := JStr "t" ]} ]}
              (mkToyExt ["DELETE FROM t"] 1))
           [EvReadFile "/t/b.sql"; EvExecute "DELETE FROM t"; EvDisconnect] (Returned tt)).
  vm_compute. reflexivity.
Defined.

Lemma executeSql_source_failure_witness :
  executeSql 1%positive (ManyCommands [Some "b.sql"; Some "c.sql"; Some "a.sql"]) pathname true
    start
  = (start, [EvReadFile "/t/b.sql"; EvReadFile "/t/c.sql"], Threw enoent).
Proof.
  apply (executeSql_source_failure 1%positive
           (ManyCommands [Some "b.sql"; Some "c.sql"; Some "a.sql"]) pathname true
           start start [EvReadFile "/t/b.sql"; EvReadFile "/t/c.sql"] enoent).
  vm_compute. reflexivity.
Defined.

Lemma files_are_read_before_any_statement_witness :
  file_reads [EvReadFile "/t/a.sql"; EvReadFile "/t/b.sql";
              EvExecute "INSERT INTO t VALUES (1)"; EvExecute "SELECT 1";
              EvExecute "DELETE FROM t"; EvDisconnect]
  = (λ file, dir pathname +:+ "/" +:+ JsString.trim file)
      <$> actualCommands (ManyCommands [Some " a.sql "; None; Some "b.sql"]).
Proof.
  apply (files_are_read_before_any_statement 1%positive
           (ManyCommands [Some " a.sql "; None; Some "b.sql"]) pathname
           (world_with {[ "T" := JStr "t" ]})
           (mkWorld platform {[ 1%positive := {[ "T" := JStr "t" ]} ]}
              (mkToyExt ["INSERT INTO t VALUES (1)"; "SELECT 1"; "DELETE FROM t"] 1))
           [EvReadFile "/t/a.sql"; EvReadFile "/t/b.sql";
            EvExecute "INSERT INTO t VALUES (1)"; EvExecute "SELECT 1";
            EvExecute "DELETE FROM t"; EvDisconnect]
           (Returned tt)).
  - vm_compute. reflexivity.
  - right. right. reflexivity.
Defined.

Lemma raw_input_is_one_group_witness :
  ∃ stmts,
    [mkGroup ["x"; "FAIL"; "y"] "raw input"] = [mkGroup stmts "raw input"]
    ∧ executions [EvExecute "x"; EvExecute "FAIL"; EvDisconnect] `prefix_of` stmts
    ∧ Threw (A:=unit) (annotated "FAIL" "raw input" boom)
      = Threw (ErrorObject 7
                 ("Error executing sql " +:+ JsString.quote +:+ "FAIL" +:+ JsString.quote
                  +:+ " from raw input: boom")).
Proof.
  destruct (raw_input_is_one_group 1%positive (ManyCommands [Some "x"; Some "FAIL; y"])
              pathname start start (mkWorld platform ∅ (mkToyExt ["x"] 1)) []
              [mkGroup ["x"; "FAIL"; "y"] "raw input"]
              [EvExecute "x"; EvExecute "FAIL"; EvDisconnect]
              (Threw (annotated "FAIL" "raw input" boom)))
    as (_ & _ & stmts & Hg & Hp & _ & Hfail); [reflexivity| vm_compute; reflexivity |].
  exists stmts. split; [exact Hg|]. split; [exact Hp|].
  destruct (Hfail (mkToyExt ["x"] 0) [EvExecute "x"; EvExecute "FAIL"] "raw input" "FAIL"
              boom (mkToyExt ["x"] 1) (Returned tt)) as [_ Hr]; [reflexivity..|].
  exact Hr.
Defined.

Lemma four_argument_test_gets_fresh_defaults_witness :
  ∃ l, heap start !! l = None
       ∧ sqlScenario [ArgString "t"; ArgString "S1"; ArgNull; ArgFunction passing] start
         = global_it "t"
             (testBody l (OneCommand (Some "S1")) (OneCommand None)
                (path_parse global_testPath) false passing)
             (mkWorld platform (<[l := startingContext]> (heap start)) (ext start)).
Proof.
  destruct (four_argument_test_gets_fresh_defaults global_it global_testPath false "t"
              (ArgString "S1") ArgNull (OneCommand (Some "S1")) (OneCommand None)
              passing start) as (l & Hfresh & Hrun & _); [reflexivity..|].
  exists l. split; [exact Hfresh|exact Hrun].
Defined.

Lemma nested_test_context_witness :
  heap start !! 1%positive = None.
Proof.
  apply (nested_test_context None start
           (mkWorld platform {[ 1%positive := spread2 blockContext startingContext ]}
              (mkToyExt [] 0)) [] 1%positive).
  vm_compute. reflexivity.
Defined.

Lemma test_without_files_is_the_body_witness :
  testBody 1%positive (OneCommand (Some "  ")) (ManyCommands [None; Some ""]) pathname true
    failing start
  = (start, [EvTestFunc], Threw (ErrorObject 5 "expect failed")).
Proof.
  apply (test_without_files_is_the_body 1%positive (OneCommand (Some "  "))
           (ManyCommands [None; Some ""]) pathname failing start start []
           (Threw (ErrorObject 5 "expect failed"))); reflexivity.
Defined.

Lemma executeSql_depends_on_its_mapping_only_witness :
  [EvExecute "DROP t"; EvDisconnect] = [EvExecute "DROP t"; EvDisconnect]
  ∧ Returned tt = Returned tt
  ∧ ext (mkWorld platform {[ 1%positive := {[ "T" := JStr "t" ]} ]} (mkToyExt ["DROP t"] 1))
    = ext (mkWorld platform {[ 1%positive := {[ "T" := JStr "t" ]}; 2%positive := ∅ ]}
             (mkToyExt ["DROP t"] 1)).
Proof.
  apply (executeSql_depends_on_its_mapping_only 1%positive (OneCommand (Some "DROP {T}"))
           pathname false
           (mkWorld platform {[ 1%positive := {[ "T" := JStr "t" ]} ]} (mkToyExt [] 0))
           (mkWorld platform {[ 1%positive := {[ "T" := JStr "t" ]}; 2%positive := ∅ ]}
              (mkToyExt [] 0))
           (mkWorld platform {[ 1%positive := {[ "T" := JStr "t" ]} ]} (mkToyExt ["DROP t"] 1))
           (mkWorld platform {[ 1%positive := {[ "T" := JStr "t" ]}; 2%positive := ∅ ]}
              (mkToyExt ["DROP t"] 1))
           [EvExecute "DROP t"; EvDisconnect] [EvExecute "DROP t"; EvDisconnect]
           (Returned tt) (Returned tt)).
  - vm_compute. reflexivity.
  - reflexivity.
  - vm_compute. reflexivity.
  - vm_compute. reflexivity.
Defined.

Lemma raw_input_without_statements_witness :
  executeSql 1%positive (ManyCommands [Some " ; "; Some ";"]) pathname false start
  = (start, [], Returned tt).
Proof.
  apply (raw_input_without_statements 1%positive (ManyCommands [Some " ; "; Some ";"])
           pathname start " ; ;;" " ; ;;"); reflexivity.
Defined.

End MoreOnToy.
